(** * state_commitment_layout: tree-layout arithmetic and its orchestration

    A shallow embedding of [app.py], [layout_sizer.py],
    [choose_best_layout.py] and [sweep_layouts.py].  Python integers are
    unbounded and are modelled as [Z]; Python floats are IEEE-754 binary64
    values and are modelled exactly, as dyadic rationals with a 53-bit
    mantissa, so that the float-valued expressions of the source
    ([nodes / fanout], [math.log], [math.log2]) keep their rounding. *)

From Stdlib Require Import ZArith List Lia Bool String.
Import ListNotations.
Local Open Scope list_scope.
Local Open Scope Z_scope.

(** ** Python exceptions and results *)

Inductive exn : Type :=
| ValueError (msg : string)
| OverflowError
| ZeroDivisionError
| RuntimeError
| SystemExit (code : Z).

Inductive result (A : Type) : Type :=
| Ok (a : A)
| Raise (e : exn).
Arguments Ok {A} a.
Arguments Raise {A} e.

Definition bind {A B : Type} (r : result A) (k : A -> result B) : result B :=
  match r with
  | Ok a => k a
  | Raise e => Raise e
  end.

Notation "x <- r ;; k" := (bind r (fun x => k))
  (at level 61, r at next level, right associativity).

(** ** Binary64 floats *)

Module PyFloat.

(** A finite double; its value is [mant * 2 ^ expo].  The mantissa of a
    value produced by rounding satisfies [|mant| <= 2 ^ 53]. *)
Record float : Type := mkfloat { mant : Z; expo : Z }.

(** Integer nearest to the rational [n / d] ([0 <= n], [0 < d]), ties to
    the even integer. *)
Definition round_half_even (n d : Z) : Z :=
  let q := n / d in
  let r := n mod d in
  if 2 * r <? d then q
  else if d <? 2 * r then q + 1
  else if Z.even q then q else q + 1.

(** [floor (log2 (a / b))] for positive [a] and [b]. *)
Definition quot_log2 (a b : Z) : Z :=
  let d := Z.log2 a - Z.log2 b in
  if b * 2 ^ Z.max 0 d <=? a * 2 ^ Z.max 0 (- d) then d else d - 1.

(** The double nearest to [a / b] for positive [a] and [b] (round to
    nearest, ties to even; subnormals below [2 ^ -1022]); [None] when the
    rounded value does not fit a double. *)
Definition nearest (a b : Z) : option float :=
  let e := Z.max (quot_log2 a b - 52) (-1074) in
  let m := round_half_even (a * 2 ^ Z.max 0 (- e)) (b * 2 ^ Z.max 0 e) in
  if (0 <=? e) && (2 ^ 1024 <=? m * 2 ^ e) then None
  else Some (mkfloat m e).

Definition fneg (x : float) : float := mkfloat (- mant x) (expo x).

(** Rounding of the rational [a / b], [b <> 0], with its sign. *)
Definition nearest_signed (a b : Z) : option float :=
  if a =? 0 then Some (mkfloat 0 0)
  else
    match nearest (Z.abs a) (Z.abs b) with
    | None => None
    | Some x => Some (if Z.sgn a * Z.sgn b <? 0 then fneg x else x)
    end.

(** [a / b] on Python integers: the correctly rounded quotient. *)
Definition int_truediv (a b : Z) : result float :=
  if b =? 0 then Raise ZeroDivisionError
  else
    match nearest_signed a b with
    | None => Raise OverflowError
    | Some x => Ok x
    end.

(** [float(a)] on a Python integer. *)
Definition of_int (a : Z) : result float :=
  match nearest_signed a 1 with
  | None => Raise OverflowError
  | Some x => Ok x
  end.

(** [x / y] on floats: the operands are finite dyadics, so the quotient is
    a rational and is rounded once. *)
Definition fdiv (x y : float) : result float :=
  if mant y =? 0 then Raise ZeroDivisionError
  else
    let s := Z.min (expo x) (expo y) in
    match nearest_signed (mant x * 2 ^ (expo x - s)) (mant y * 2 ^ (expo y - s)) with
    | None => Raise OverflowError
    | Some z => Ok z
    end.

(** [math.ceil(x)]: the least integer not below [x]. *)
Definition ceil (x : float) : Z :=
  if 0 <=? expo x then mant x * 2 ^ expo x
  else - ((- mant x) / 2 ^ (- expo x)).

(** [x.is_integer()]. *)
Definition is_integer (x : float) : bool :=
  if 0 <=? expo x then true
  else mant x mod 2 ^ (- expo x) =? 0.

(** [int(x)]: truncation toward zero. *)
Definition to_int (x : float) : Z :=
  if 0 <=? expo x then mant x * 2 ^ expo x
  else Z.quot (mant x) (2 ^ (- expo x)).

(** Equality of the values of two floats. *)
Definition feqb (x y : float) : bool :=
  let s := Z.min (expo x) (expo y) in
  mant x * 2 ^ (expo x - s) =? mant y * 2 ^ (expo y - s).

(** [x < y] on finite floats. *)
Definition fltb (x y : float) : bool :=
  let s := Z.min (expo x) (expo y) in
  mant x * 2 ^ (expo x - s) <? mant y * 2 ^ (expo y - s).

(** Floats with [float("inf")]. *)
Inductive xfloat : Type :=
| Finite (x : float)
| Infinity.

(** [x < y] on floats that may be infinite. *)
Definition xltb (x y : xfloat) : bool :=
  match x, y with
  | Finite a, Finite b => fltb a b
  | Finite _, Infinity => true
  | Infinity, _ => false
  end.

End PyFloat.

(** ** app.py *)

Module App.

Record StyleProfile : Type := mkStyle {
  key : string;
  name : string;
  hash_bytes : Z;
  note : string
}.

Definition aztec : StyleProfile :=
  mkStyle "aztec" "Aztec-style privacy rollup" 32
          "Optimised for zk commitments over encrypted state roots.".
Definition zama : StyleProfile :=
  mkStyle "zama" "Zama-style FHE compute stack" 48
          "FHE-heavy designs often tolerate slightly larger commitments.".
Definition soundness : StyleProfile :=
  mkStyle "soundness" "Soundness-first protocol lab" 32
          "Prefers simple, standard-sized commitments for verifiable semantics.".

(** The [STYLES] dictionary, in insertion order. *)
Definition STYLES : list (string * StyleProfile) :=
  [("aztec", aztec); ("zama", zama); ("soundness", soundness)]%string.

Definition clamp_int (x lo hi : Z) : Z := Z.max lo (Z.min hi x).

Record TreeShape : Type := mkTree {
  height : Z;
  totalNodes : Z;
  nodesPerLevel : list Z
}.

(** State of the [while nodes > 1] loop of [estimate_tree]. *)
Record loop_state : Type := mkLoop {
  l_height : Z;
  l_nodes : Z;
  l_total : Z;
  l_levels : list Z
}.

(** The loop, with a bound on the number of iterations; [None] when the
    bound is reached before the loop condition fails. *)
Fixpoint estimate_loop (fuel : nat) (fanout : Z) (s : loop_state)
  : option (result loop_state) :=
  match fuel with
  | O => None
  | S fuel' =>
      if 1 <? l_nodes s then
        match PyFloat.int_truediv (l_nodes s) fanout with
        | Raise e => Some (Raise e)
        | Ok q =>
            estimate_loop fuel' fanout
              (mkLoop (l_height s + 1) (PyFloat.ceil q)
                      (l_total s + l_nodes s) (l_levels s ++ [l_nodes s]))
        end
      else Some (Ok s)
  end.

Definition allowed_fanout (fanout : Z) : bool :=
  (fanout =? 2) || (fanout =? 4) || (fanout =? 8).

Definition estimate_tree_fuel (fuel : nat) (leaves fanout : Z)
  : option (result TreeShape) :=
  if leaves <=? 0 then Some (Raise (ValueError "leaves must be positive"))
  else if negb (allowed_fanout fanout)
  then Some (Raise (ValueError "fanout must be one of 2, 4, or 8"))
  else
    match estimate_loop fuel fanout (mkLoop 0 leaves 0 []) with
    | None => None
    | Some (Raise e) => Some (Raise e)
    | Some (Ok s) =>
        Some (Ok (mkTree (l_height s) (l_total s + l_nodes s)
                         (l_levels s ++ [l_nodes s])))
    end.

(** Iterations that always suffice (see [estimate_loop_enough]). *)
Definition loop_bound (leaves : Z) : nat := S (Z.to_nat (Z.log2_up leaves)).

Definition estimate_tree (leaves fanout : Z) : option (result TreeShape) :=
  estimate_tree_fuel (loop_bound leaves) leaves fanout.

(** The dictionary built by [build_layout]. *)
Record Layout : Type := mkLayout {
  style : string;
  styleName : string;
  lnote : string;
  leaves : Z;
  fanout : Z;
  treeHeight : Z;
  ltotalNodes : Z;
  lnodesPerLevel : list Z;
  hashBytes : Z;
  proofBranchLength : Z;
  perProofBytes : Z;
  perProofBits : Z;
  totalCommitmentBytes : Z
}.

Definition build_layout (style : StyleProfile) (leaves fanout : Z)
  : option (result Layout) :=
  match estimate_tree leaves fanout with
  | None => None
  | Some (Raise e) => Some (Raise e)
  | Some (Ok tree) =>
      let hash_bytes := hash_bytes style in
      let proof_branch_length := height tree in
      let per_proof_bytes := (proof_branch_length + 1) * hash_bytes in
      let per_proof_bits := per_proof_bytes * 8 in
      let total_commitment_bytes := totalNodes tree * hash_bytes in
      Some (Ok (mkLayout (key style) (name style) (note style) leaves fanout
                         (height tree) (totalNodes tree) (nodesPerLevel tree)
                         hash_bytes proof_branch_length per_proof_bytes
                         per_proof_bits total_commitment_bytes))
  end.

Fixpoint lookup {A : Type} (k : string) (d : list (string * A)) : option A :=
  match d with
  | [] => None
  | (k', v) :: d' => if String.eqb k k' then Some v else lookup k d'
  end.

(** [main] of app.py up to printing, for a leaves argument the parser
    has converted with [type=int]: the parser rejects a style or a fanout
    outside its [choices] with exit status 2, and the leaf count is
    clamped before the layout is built. *)
Definition app_main (leaves : Z) (style : string) (fanout : Z)
  : option (result Layout) :=
  match lookup style STYLES with
  | None => Some (Raise (SystemExit 2))
  | Some st =>
      if negb (allowed_fanout fanout) then Some (Raise (SystemExit 2))
      else build_layout st (clamp_int leaves 1 10000000) fanout
  end.

End App.

(** ** layout_sizer.py *)

Module Sizer.
Section WithLog.

(** [math.log(n)] on a positive integer: the C library's natural
    logarithm of [float(n)].  Its values are not fixed by the repository,
    so it is a parameter of the model. *)
Variable math_log : Z -> PyFloat.float.

(** [math.log(x, base)]: the quotient of the two logarithms, as floats. *)
Definition math_log_base (x base : Z) : result PyFloat.float :=
  PyFloat.fdiv (math_log x) (math_log base).

Record PaddedLayout : Type := mkPadded {
  leaves : Z;
  arity : Z;
  height : Z;
  fullLeaves : Z;
  paddingLeaves : Z;
  totalNodes : Z;
  internalNodes : Z;
  leafNodes : Z
}.

(** [sys.exit(2)] is [SystemExit 2].  The height is never negative when
    both logarithms are non-negative, so [arity ** height] is an integer
    power. *)
Definition compute_layout (leaves arity : Z) : result PaddedLayout :=
  if leaves <=? 0 then Raise (SystemExit 2)
  else if arity <=? 1 then Raise (SystemExit 2)
  else
    q <- math_log_base leaves arity ;;
    let height := PyFloat.ceil q in
    let full_leaves := arity ^ height in
    let padding_leaves := full_leaves - leaves in
    let total_nodes := (arity ^ (height + 1) - 1) / (arity - 1) in
    let internal_nodes := total_nodes - full_leaves in
    Ok (mkPadded leaves arity height full_leaves padding_leaves total_nodes
                 internal_nodes full_leaves).

End WithLog.
End Sizer.

(** ** choose_best_layout.py *)

Module Selector.

(** The JSON object read back from app.py, restricted to its members that
    hold an integer or [null] ([None]); these are the members a metric can
    name. *)
Definition json_object : Type := list (string * option Z).

Record LayoutResult : Type := mkLayoutResult {
  fanout : Z;
  data : json_object
}.

Definition METRICS : list string :=
  ["treeHeight"; "totalNodes"; "proofBranchLength"; "perProofBytes";
   "totalCommitmentBytes"]%string.

(** [data.get(metric)]: [None] for a missing member and for [null]. *)
Definition get (d : json_object) (k : string) : option Z :=
  match App.lookup k d with
  | Some (Some z) => Some z
  | _ => None
  end.

Definition metric_value (d : json_object) (metric : string)
  : result PyFloat.xfloat :=
  match get d metric with
  | None => Ok PyFloat.Infinity
  | Some val => x <- PyFloat.of_int val ;; Ok (PyFloat.Finite x)
  end.

(** [min(items, key=key)]: the keys are computed in order and an item
    replaces the current best only when its key is strictly smaller. *)
Fixpoint min_loop {A : Type} (key : A -> result PyFloat.xfloat)
    (items : list A) (best : A) (best_key : PyFloat.xfloat) : result A :=
  match items with
  | [] => Ok best
  | item :: rest =>
      k <- key item ;;
      if PyFloat.xltb k best_key then min_loop key rest item k
      else min_loop key rest best best_key
  end.

Definition min_by {A : Type} (key : A -> result PyFloat.xfloat)
    (items : list A) : result A :=
  match items with
  | [] => Raise (ValueError "min() arg is an empty sequence")
  | item :: rest => k <- key item ;; min_loop key rest item k
  end.

Section WithApp.

(** [run_app]: one run of app.py in a child process for the given leaves,
    style and fanout, giving the parsed JSON or an exception. *)
Variable run_app : Z -> string -> Z -> result json_object.

(** The [for f in args.fanouts] loop: [except Exception] skips a failed
    candidate; [SystemExit] is not an [Exception] and propagates. *)
Fixpoint collect (leaves : Z) (style : string) (fanouts : list Z)
    (layouts : list LayoutResult) : result (list LayoutResult) :=
  match fanouts with
  | [] => Ok layouts
  | f :: rest =>
      match run_app leaves style f with
      | Ok d => collect leaves style rest (layouts ++ [mkLayoutResult f d])
      | Raise (SystemExit c) => Raise (SystemExit c)
      | Raise _ => collect leaves style rest layouts
      end
  end.

(** The body of [main] from the candidate loop to the choice of [best],
    that is for arguments [parse_args] has accepted and an [app_path] that
    is a file; the table printed afterwards is not modelled. *)
Definition main (leaves : Z) (style : string) (fanouts : list Z)
    (metric : string) : result LayoutResult :=
  layouts <- collect leaves style fanouts [] ;;
  match layouts with
  | [] => Raise (SystemExit 1)
  | _ => min_by (fun lr => metric_value (data lr) metric) layouts
  end.

(** The [choices] of [--style]. *)
Definition STYLE_CHOICES : list string :=
  ["aztec"; "zama"; "soundness"]%string.

(** [main] with its first lines: [parse_args] ends the process with status
    2 for a style or a metric outside its choices and for [--fanouts]
    without a value ([nargs="+"]); an [app_path] that is not a file ends
    it with status 1.  [is_file] is the answer of [app_path.is_file()]. *)
Definition main_with_parser (is_file : bool) (leaves : Z) (style : string)
    (fanouts : list Z) (metric : string) : result LayoutResult :=
  if negb (existsb (String.eqb style) STYLE_CHOICES) then Raise (SystemExit 2)
  else if negb (existsb (String.eqb metric) METRICS) then Raise (SystemExit 2)
  else
    match fanouts with
    | [] => Raise (SystemExit 2)
    | _ => if negb is_file then Raise (SystemExit 1)
           else main leaves style fanouts metric
    end.

End WithApp.

(** The members of the JSON object app.py prints that hold integers. *)
Definition json_of_layout (l : App.Layout) : json_object :=
  [("fanout", Some (App.fanout l));
   ("hashBytes", Some (App.hashBytes l));
   ("leaves", Some (App.leaves l));
   ("perProofBits", Some (App.perProofBits l));
   ("perProofBytes", Some (App.perProofBytes l));
   ("proofBranchLength", Some (App.proofBranchLength l));
   ("totalCommitmentBytes", Some (App.totalCommitmentBytes l));
   ("totalNodes", Some (App.ltotalNodes l));
   ("treeHeight", Some (App.treeHeight l))]%string.

(** [run_app] with app.py run in process: a non-zero exit status of the
    child becomes [RuntimeError]. *)
Definition run_app_inprocess (leaves : Z) (style : string) (fanout : Z)
  : result json_object :=
  match App.app_main leaves style fanout with
  | Some (Ok l) => Ok (json_of_layout l)
  | _ => Raise RuntimeError
  end.

End Selector.

(** ** sweep_layouts.py *)

Module Sweeper.
Section WithLog2.

(** [math.log2(n)] on a positive integer; a parameter of the model, as
    the C library's [log2] is not fixed by the repository. *)
Variable math_log2 : Z -> PyFloat.float.

(** [while n <= leaf_max: counts.append(int(n)); n *= 2]. *)
Fixpoint doubling_loop (fuel : nat) (leaf_max n : Z) (counts : list Z)
  : option (list Z) :=
  match fuel with
  | O => None
  | S fuel' =>
      if n <=? leaf_max
      then doubling_loop fuel' leaf_max (n * 2) (counts ++ [n])
      else Some counts
  end.

(** [while p <= int(end_pow): counts.append(2**p); p += step].  The
    exponent [p] starts at the logarithm of [leaf_min >= 1], which is not
    negative, so [2**p] is an integer power. *)
Fixpoint power_loop (fuel : nat) (end_pow step p : Z) (counts : list Z)
  : option (list Z) :=
  match fuel with
  | O => None
  | S fuel' =>
      if p <=? end_pow
      then power_loop fuel' end_pow step (p + step) (counts ++ [2 ^ p])
      else Some counts
  end.

Definition generate_leaf_counts_fuel (fuel : nat) (leaf_min leaf_max step : Z)
  : option (result (list Z)) :=
  if (leaf_min <=? 0) || (leaf_max <? leaf_min)
  then Some (Raise (ValueError "leaf-min must be > 0 and <= leaf-max"))
  else
    let start_pow := math_log2 leaf_min in
    let end_pow := math_log2 leaf_max in
    if negb (PyFloat.is_integer start_pow) || negb (PyFloat.is_integer end_pow)
    then option_map Ok (doubling_loop fuel leaf_max leaf_min [])
    else option_map Ok
           (power_loop fuel (PyFloat.to_int end_pow) step
                       (PyFloat.to_int start_pow) []).

(** Iterations that suffice for a positive [step]. *)
Definition leaf_counts_bound (leaf_min leaf_max : Z) : nat :=
  S (Z.to_nat (Z.max (Z.log2 leaf_max + 1)
                     (PyFloat.to_int (math_log2 leaf_max)
                      - PyFloat.to_int (math_log2 leaf_min) + 1))).

Definition generate_leaf_counts (leaf_min leaf_max step : Z)
  : option (result (list Z)) :=
  generate_leaf_counts_fuel (leaf_counts_bound leaf_min leaf_max)
                            leaf_min leaf_max step.

End WithLog2.
End Sweeper.

(** ** Auxiliary notions used in the statements *)

(** Exact ceiling division on integers, [ceil (a / b)] for [0 < b]. *)
Definition cdiv (a b : Z) : Z := - ((- a) / b).

(** Mantissa of the double nearest to the integer [n], [1 <= n]. *)
Definition mant53 (n : Z) : Z :=
  let e := Z.log2 n - 52 in
  if e <=? 0 then n * 2 ^ (- e) else PyFloat.round_half_even n (2 ^ e).

(** The integer value of [float(n)] for [1 <= n]: [n] rounded to 53
    significant bits. *)
Definition fl (n : Z) : Z :=
  let e := Z.log2 n - 52 in
  if e <=? 0 then n else mant53 n * 2 ^ e.

(** Consecutive elements of a list are related by [R]. *)
Fixpoint chain (R : Z -> Z -> Prop) (l : list Z) : Prop :=
  match l with
  | a :: (b :: _) as t => R a b /\ chain R t
  | _ => True
  end.

Definition sum_list (l : list Z) : Z := fold_right Z.add 0 l.

(** ** Values of the C library used at concrete inputs *)

(** The doubles nearest to [ln 125] and [ln 5]
    ([0x1.3503179f229e7p+2] and [0x1.9c041f7ed8d33p+0]), which is what a
    correctly rounding [log] returns; other arguments are not needed. *)
Definition log_table (n : Z) : PyFloat.float :=
  if n =? 125 then PyFloat.mkfloat 5436197987035623 (-50)
  else if n =? 5 then PyFloat.mkfloat 7248263982714163 (-52)
  else PyFloat.mkfloat 0 0.

(** A [log2] on integers that goes through [float(n)] and is exact on the
    powers of two; elsewhere it returns the midpoint between the two
    neighbouring integers. *)
Definition log2_through_float (n : Z) : PyFloat.float :=
  let x := fl n in
  if x =? 2 ^ Z.log2 x then PyFloat.mkfloat (Z.log2 x) 0
  else PyFloat.mkfloat (2 * Z.log2 x + 1) (-1).

(** [best] stands at a place in [items] where every earlier item has a
    strictly larger key and no later item has a smaller one. *)
Definition first_minimum {A : Type} (key : A -> result PyFloat.xfloat)
    (items : list A) (best : A) : Prop :=
  exists pre post vb,
    items = pre ++ best :: post /\
    key best = Ok vb /\
    (forall x, In x pre ->
       exists v, key x = Ok v /\ PyFloat.xltb vb v = true) /\
    (forall x, In x post ->
       exists v, key x = Ok v /\ PyFloat.xltb v vb = false).

(** Nodes of a full tree level by level: [1 + a + ... + a ^ h]. *)
Definition level_sum (a : Z) (h : nat) : Z :=
  sum_list (map (fun i => a ^ Z.of_nat i) (seq 0 (S h))).

(** The candidates whose run succeeded, in the order of the fanouts. *)
Definition successes (run_app : Z -> string -> Z -> result Selector.json_object)
    (leaves : Z) (style : string) (fanouts : list Z)
  : list Selector.LayoutResult :=
  flat_map (fun f => match run_app leaves style f with
                     | Ok d => [Selector.mkLayoutResult f d]
                     | Raise _ => []
                     end) fanouts.

(** No run of app.py ends the calling process. *)
Definition no_exit (run_app : Z -> string -> Z -> result Selector.json_object)
    (leaves : Z) (style : string) (fanouts : list Z) : Prop :=
  forall f c, In f fanouts -> run_app leaves style f <> Raise (SystemExit c).

(** * Properties *)

Import App.

Section Rounding.
Import PyFloat.

Lemma rhe_exact q d : 0 < d -> round_half_even (q * d) d = q.
Proof.
  intros Hd. unfold round_half_even.
  rewrite Z.div_mul, Z.mod_mul by lia.
  destruct (Z.ltb_spec (2 * 0) d); [reflexivity | lia].
Qed.

Lemma rhe_scale n d c :
  0 < d -> 0 < c -> round_half_even (n * c) (d * c) = round_half_even n d.
Proof.
  intros Hd Hc. unfold round_half_even.
  rewrite Z.div_mul_cancel_r by lia.
  rewrite Z.mul_mod_distr_r by lia.
  pose proof (Z.mod_pos_bound n d Hd) as Hr.
  set (r := n mod d) in *.
  destruct (Z.ltb_spec (2 * (r * c)) (d * c)), (Z.ltb_spec (2 * r) d);
    try nia; try reflexivity.
  destruct (Z.ltb_spec (d * c) (2 * (r * c))), (Z.ltb_spec d (2 * r));
    try nia; reflexivity.
Qed.

Lemma rhe_range n d :
  0 < d -> n / d <= round_half_even n d <= n / d + 1.
Proof.
  intros Hd. unfold round_half_even.
  destruct (2 * (n mod d) <? d); [lia |].
  destruct (d <? 2 * (n mod d)); [lia |].
  destruct (Z.even (n / d)); lia.
Qed.

Lemma rhe_mono n n' d :
  0 < d -> n <= n' -> round_half_even n d <= round_half_even n' d.
Proof.
  intros Hd Hn.
  pose proof (Z.div_le_mono n n' d Hd Hn) as Hq.
  destruct (Z.eq_dec (n / d) (n' / d)) as [E | E].
  - assert (Hr : n mod d <= n' mod d).
    { pose proof (Z.div_mod n d) as H1. pose proof (Z.div_mod n' d) as H2.
      rewrite E in H1. specialize (H1 ltac:(lia)). specialize (H2 ltac:(lia)). lia. }
    unfold round_half_even. rewrite E.
    destruct (Z.ltb_spec (2 * (n mod d)) d), (Z.ltb_spec (2 * (n' mod d)) d);
      try lia;
      destruct (Z.ltb_spec d (2 * (n mod d))), (Z.ltb_spec d (2 * (n' mod d)));
      try lia; destruct (Z.even (n' / d)); lia.
  - pose proof (rhe_range n d Hd). pose proof (rhe_range n' d Hd). lia.
Qed.

Lemma rhe_lower lo n d : 0 < d -> lo * d <= n -> lo <= round_half_even n d.
Proof.
  intros Hd H. rewrite <- (rhe_exact lo d Hd). now apply rhe_mono.
Qed.

Lemma rhe_upper hi n d : 0 < d -> n <= hi * d -> round_half_even n d <= hi.
Proof.
  intros Hd H. rewrite <- (rhe_exact hi d Hd). now apply rhe_mono.
Qed.

End Rounding.

Section Division.
Import PyFloat.

Lemma pow2_pos k : 0 <= k -> 0 < 2 ^ k.
Proof. intros; apply Z.pow_pos_nonneg; lia. Qed.

Lemma pow2_split a b : 0 <= a -> 0 <= b -> 2 ^ (a + b) = 2 ^ a * 2 ^ b.
Proof. intros; apply Z.pow_add_r; lia. Qed.

Lemma quot_log2_pow2 n k :
  1 <= n -> 0 <= k -> quot_log2 n (2 ^ k) = Z.log2 n - k.
Proof.
  intros Hn Hk. unfold quot_log2.
  rewrite Z.log2_pow2 by lia.
  destruct (Z.log2_spec n ltac:(lia)) as [Hlo _].
  pose proof (Z.log2_nonneg n) as HL.
  set (L := Z.log2 n) in *.
  destruct (Z.leb_spec (2 ^ k * 2 ^ Z.max 0 (L - k)) (n * 2 ^ Z.max 0 (- (L - k))))
    as [_ | H]; [reflexivity | exfalso].
  destruct (Z.le_gt_cases k L).
  - rewrite (Z.max_r 0 (L - k)), (Z.max_l 0 (- (L - k))) in H by lia.
    rewrite <- pow2_split in H by lia.
    replace (k + (L - k)) with L in H by lia. change (2 ^ 0) with 1 in H. lia.
  - rewrite (Z.max_l 0 (L - k)), (Z.max_r 0 (- (L - k))) in H by lia.
    change (2 ^ 0) with 1 in H.
    assert (E : 2 ^ k = 2 ^ L * 2 ^ (- (L - k))).
    { rewrite <- pow2_split by lia. f_equal; lia. }
    pose proof (pow2_pos (- (L - k)) ltac:(lia)). nia.
Qed.

Lemma mant53_range n : 1 <= n -> 2 ^ 52 <= mant53 n <= 2 ^ 53.
Proof.
  intros Hn. unfold mant53.
  destruct (Z.log2_spec n ltac:(lia)) as [Hlo Hhi].
  pose proof (Z.log2_nonneg n) as HL.
  set (L := Z.log2 n) in *.
  destruct (Z.leb_spec (L - 52) 0).
  - assert (E : 2 ^ 52 = 2 ^ L * 2 ^ (- (L - 52))).
    { rewrite <- pow2_split by lia. f_equal; lia. }
    assert (E' : 2 ^ 53 = 2 ^ Z.succ L * 2 ^ (- (L - 52))).
    { rewrite <- pow2_split by lia. f_equal; lia. }
    pose proof (pow2_pos (- (L - 52)) ltac:(lia)). nia.
  - assert (E : 2 ^ L = 2 ^ 52 * 2 ^ (L - 52)).
    { rewrite <- pow2_split by lia. f_equal; lia. }
    assert (E' : 2 ^ Z.succ L = 2 ^ 53 * 2 ^ (L - 52)).
    { rewrite <- pow2_split by lia. f_equal; lia. }
    pose proof (pow2_pos (L - 52) ltac:(lia)).
    split; [apply rhe_lower | apply rhe_upper]; lia.
Qed.

Lemma nearest_pow2 n k :
  1 <= n -> 0 <= k <= 1022 ->
  nearest n (2 ^ k) =
    let e := Z.log2 n - 52 - k in
    if (0 <=? e) && (2 ^ 1024 <=? mant53 n * 2 ^ e) then None
    else Some (mkfloat (mant53 n) e).
Proof.
  intros Hn Hk. unfold nearest.
  rewrite quot_log2_pow2 by lia.
  pose proof (Z.log2_nonneg n) as HL.
  set (L := Z.log2 n) in *.
  replace (L - k - 52) with (L - 52 - k) by lia.
  rewrite Z.max_l by lia.
  set (e := L - 52 - k).
  assert (Hm : round_half_even (n * 2 ^ Z.max 0 (- e)) (2 ^ k * 2 ^ Z.max 0 e)
               = mant53 n).
  { unfold mant53. fold L.
    destruct (Z.leb_spec (L - 52) 0).
    - (* n has at most 53 bits: the quotient is exact *)
      rewrite (Z.max_r 0 (- e)), (Z.max_l 0 e) by lia.
      change (2 ^ 0) with 1. rewrite Z.mul_1_r.
      replace (- e) with (- (L - 52) + k) by lia.
      rewrite pow2_split, Z.mul_assoc by lia.
      apply rhe_exact, pow2_pos; lia.
    - destruct (Z.le_gt_cases 0 e).
      + rewrite (Z.max_l 0 (- e)), (Z.max_r 0 e) by lia.
        change (2 ^ 0) with 1. rewrite Z.mul_1_r.
        rewrite <- pow2_split by lia. do 2 f_equal. lia.
      + rewrite (Z.max_r 0 (- e)), (Z.max_l 0 e) by lia.
        change (2 ^ 0) with 1. rewrite Z.mul_1_r.
        replace k with ((L - 52) + (- e)) at 1 by lia.
        rewrite pow2_split by lia.
        apply rhe_scale; apply pow2_pos; lia. }
  rewrite Hm. reflexivity.
Qed.

End Division.

Section FloatOfInt.
Import PyFloat.

Lemma cdiv_scale a b c : 0 < b -> 0 < c -> cdiv (a * c) (b * c) = cdiv a b.
Proof.
  intros. unfold cdiv. rewrite <- Z.mul_opp_l, Z.div_mul_cancel_r by lia.
  reflexivity.
Qed.

Lemma cdiv_exact q b : 0 < b -> cdiv (q * b) b = q.
Proof.
  intros. unfold cdiv. rewrite <- Z.mul_opp_l, Z.div_mul by lia. lia.
Qed.

Lemma cdiv_mono a a' b : 0 < b -> a <= a' -> cdiv a b <= cdiv a' b.
Proof.
  intros. unfold cdiv.
  pose proof (Z.div_le_mono (- a') (- a) b). lia.
Qed.

Lemma cdiv_spec a b : 0 < b -> a <= cdiv a b * b < a + b.
Proof.
  intros Hb. unfold cdiv.
  pose proof (Z.div_mod (- a) b ltac:(lia)).
  pose proof (Z.mod_pos_bound (- a) b Hb). nia.
Qed.

Lemma cdiv_add a b : 0 < b -> cdiv a b = (a + b - 1) / b.
Proof.
  intros Hb. pose proof (cdiv_spec a b Hb).
  apply Z.div_unique with (r := a + b - 1 - cdiv a b * b); lia.
Qed.

Lemma fl_bounds n : 1 <= n -> 2 ^ Z.log2 n <= fl n <= 2 ^ Z.succ (Z.log2 n).
Proof.
  intros Hn. unfold fl.
  destruct (Z.log2_spec n ltac:(lia)) as [Hlo Hhi].
  pose proof (mant53_range n Hn) as Hm.
  set (L := Z.log2 n) in *.
  destruct (Z.leb_spec (L - 52) 0); [lia |].
  assert (E : 2 ^ L = 2 ^ 52 * 2 ^ (L - 52)).
  { rewrite <- pow2_split by lia. f_equal; lia. }
  assert (E' : 2 ^ Z.succ L = 2 ^ 53 * 2 ^ (L - 52)).
  { rewrite <- pow2_split by lia. f_equal; lia. }
  pose proof (pow2_pos (L - 52) ltac:(lia)). nia.
Qed.

Lemma fl_exact n : 1 <= n <= 2 ^ 53 -> fl n = n.
Proof.
  intros [Hn Hhi]. unfold fl.
  destruct (Z.leb_spec (Z.log2 n - 52) 0) as [| H]; [reflexivity |].
  assert (L : Z.log2 n <= 53).
  { rewrite <- (Z.log2_pow2 53) by lia. apply Z.log2_le_mono; lia. }
  assert (E : Z.log2 n = 53) by lia.
  destruct (Z.log2_spec n ltac:(lia)) as [Hlo _].
  rewrite E in *. replace n with (2 ^ 53) by lia. reflexivity.
Qed.

Lemma fl_mono n n' : 1 <= n -> n <= n' -> fl n <= fl n'.
Proof.
  intros Hn Hle.
  pose proof (Z.log2_le_mono n n' Hle) as HL.
  pose proof (fl_bounds n Hn) as B. pose proof (fl_bounds n' ltac:(lia)) as B'.
  destruct (Z.eq_dec (Z.log2 n) (Z.log2 n')) as [E | NE].
  - unfold fl, mant53. rewrite <- E.
    destruct (Z.leb_spec (Z.log2 n - 52) 0); [lia |].
    apply Z.mul_le_mono_nonneg_r.
    + apply Z.lt_le_incl, pow2_pos; lia.
    + apply rhe_mono; [apply pow2_pos |]; lia.
  - assert (2 ^ Z.succ (Z.log2 n) <= 2 ^ Z.log2 n').
    { apply Z.pow_le_mono_r; lia. }
    lia.
Qed.

Lemma fl_pow2 j : 0 <= j -> fl (2 ^ j) = 2 ^ j.
Proof.
  intros Hj. unfold fl, mant53. rewrite Z.log2_pow2 by lia.
  destruct (Z.leb_spec (j - 52) 0); [reflexivity |].
  replace (2 ^ j) with (2 ^ 52 * 2 ^ (j - 52)) at 1.
  - rewrite rhe_exact by (apply pow2_pos; lia).
    rewrite <- pow2_split by lia. f_equal; lia.
  - rewrite <- pow2_split by lia. f_equal; lia.
Qed.

Lemma fl_le_pow2 n j : 1 <= n -> 0 <= j -> n <= 2 ^ j -> fl n <= 2 ^ j.
Proof.
  intros Hn Hj H. rewrite <- (fl_pow2 j Hj). now apply fl_mono.
Qed.

Lemma fl_pos n : 1 <= n -> 1 <= fl n.
Proof.
  intros Hn. pose proof (fl_bounds n Hn).
  pose proof (pow2_pos (Z.log2 n) (Z.log2_nonneg n)). lia.
Qed.

(** The integer read off the quotient agrees with exact ceiling division
    of the rounded dividend. *)
Lemma ceil_mant53 n k :
  1 <= n -> 0 <= k ->
  ceil (mkfloat (mant53 n) (Z.log2 n - 52 - k)) = cdiv (fl n) (2 ^ k).
Proof.
  intros Hn Hk. unfold ceil, fl, mant53. cbn [mant expo].
  pose proof (Z.log2_nonneg n) as HL.
  set (L := Z.log2 n) in *.
  pose proof (pow2_pos k Hk) as Pk.
  destruct (Z.leb_spec (L - 52) 0) as [H0 | H0];
    destruct (Z.leb_spec 0 (L - 52 - k)) as [He | He].
  - assert (k = 0) by lia. assert (L = 52) by lia. subst k.
    replace (L - 52 - 0) with 0 by lia. replace (- (L - 52)) with 0 by lia.
    change (2 ^ 0) with 1. rewrite !Z.mul_1_r.
    symmetry. rewrite <- (Z.mul_1_r n) at 1. apply cdiv_exact; lia.
  - assert (E : 2 ^ (- (L - 52 - k)) = 2 ^ k * 2 ^ (- (L - 52))).
    { rewrite <- pow2_split by lia. f_equal; lia. }
    rewrite E. apply (cdiv_scale n (2 ^ k)); [| apply pow2_pos]; lia.
  - set (m := round_half_even n (2 ^ (L - 52))).
    assert (E : 2 ^ (L - 52) = 2 ^ (L - 52 - k) * 2 ^ k).
    { rewrite <- pow2_split by lia. f_equal; lia. }
    rewrite E, Z.mul_assoc. symmetry. apply cdiv_exact; lia.
  - set (m := round_half_even n (2 ^ (L - 52))).
    assert (E : 2 ^ k = 2 ^ (- (L - 52 - k)) * 2 ^ (L - 52)).
    { rewrite <- pow2_split by lia. f_equal; lia. }
    rewrite E. symmetry.
    apply (cdiv_scale m (2 ^ (- (L - 52 - k)))); apply pow2_pos; lia.
Qed.

(** The quotient overflows exactly when the rounded dividend reaches
    [2 ^ (1024 + k)]. *)
Lemma overflow_mant53 n k :
  1 <= n -> 0 <= k ->
  (0 <=? Z.log2 n - 52 - k) && (2 ^ 1024 <=? mant53 n * 2 ^ (Z.log2 n - 52 - k))
  = (2 ^ (1024 + k) <=? fl n).
Proof.
  intros Hn Hk. unfold fl.
  pose proof (mant53_range n Hn) as Hm.
  destruct (Z.log2_spec n ltac:(lia)) as [_ Hhi].
  pose proof (Z.log2_nonneg n) as HL.
  set (L := Z.log2 n) in *.
  pose proof (pow2_pos k Hk) as Pk.
  assert (P53 : 2 ^ 53 < 2 ^ 1024) by (apply Z.pow_lt_mono_r; lia).
  assert (E1024 : 2 ^ (1024 + k) = 2 ^ 1024 * 2 ^ k) by (apply pow2_split; lia).
  destruct (Z.leb_spec (L - 52) 0) as [H0 | H0];
    destruct (Z.leb_spec 0 (L - 52 - k)) as [He | He]; cbn [andb].
  - assert (n < 2 ^ 53).
    { eapply Z.lt_le_trans; [exact Hhi | apply Z.pow_le_mono_r; lia]. }
    assert (k = 0) by lia. subst k. replace (L - 52 - 0) with 0 by lia.
    change (2 ^ 0) with 1 in *.
    destruct (Z.leb_spec (2 ^ 1024) (mant53 n * 1)),
             (Z.leb_spec (2 ^ (1024 + 0)) n); try reflexivity; nia.
  - assert (n < 2 ^ 53).
    { eapply Z.lt_le_trans; [exact Hhi | apply Z.pow_le_mono_r; lia]. }
    destruct (Z.leb_spec (2 ^ (1024 + k)) n); [nia | reflexivity].
  - assert (E : 2 ^ (L - 52) = 2 ^ (L - 52 - k) * 2 ^ k).
    { rewrite <- pow2_split by lia. f_equal; lia. }
    rewrite E, E1024.
    destruct (Z.leb_spec (2 ^ 1024) (mant53 n * 2 ^ (L - 52 - k))),
             (Z.leb_spec (2 ^ 1024 * 2 ^ k) (mant53 n * (2 ^ (L - 52 - k) * 2 ^ k)));
      try reflexivity; nia.
  - assert (2 ^ (L - 52) < 2 ^ k) by (apply Z.pow_lt_mono_r; lia).
    pose proof (pow2_pos (L - 52) ltac:(lia)).
    destruct (Z.leb_spec (2 ^ (1024 + k)) (mant53 n * 2 ^ (L - 52)));
      [nia | reflexivity].
Qed.

(** [n / 2 ^ k] on integers: the float whose ceiling is the exact
    ceiling quotient of [float(n)], or [OverflowError]. *)
Lemma int_truediv_pow2 n k :
  1 <= n -> 0 <= k <= 1022 ->
  int_truediv n (2 ^ k) =
    if 2 ^ (1024 + k) <=? fl n then Raise OverflowError
    else Ok (mkfloat (mant53 n) (Z.log2 n - 52 - k)).
Proof.
  intros Hn Hk. unfold int_truediv, nearest_signed.
  pose proof (pow2_pos k ltac:(lia)) as Pk.
  destruct (Z.eqb_spec (2 ^ k) 0); [lia |].
  destruct (Z.eqb_spec n 0); [lia |].
  rewrite (Z.abs_eq n), (Z.abs_eq (2 ^ k)) by lia.
  rewrite nearest_pow2 by lia. cbv zeta.
  rewrite overflow_mant53 by lia.
  destruct (2 ^ (1024 + k) <=? fl n); [reflexivity |].
  rewrite !Z.sgn_pos by lia. reflexivity.
Qed.

End FloatOfInt.

Section Loop.

Lemma allowed_fanout_pow2 f :
  allowed_fanout f = true -> exists k, 1 <= k <= 3 /\ f = 2 ^ k.
Proof.
  unfold allowed_fanout. intros H.
  apply orb_true_iff in H. destruct H as [H | H].
  - apply orb_true_iff in H. destruct H as [H | H]; apply Z.eqb_eq in H; subst.
    + exists 1; split; [lia | reflexivity].
    + exists 2; split; [lia | reflexivity].
  - apply Z.eqb_eq in H; subst. exists 3; split; [lia | reflexivity].
Qed.

Lemma allowed_fanout_iff f :
  allowed_fanout f = true <-> f = 2 \/ f = 4 \/ f = 8.
Proof.
  unfold allowed_fanout. rewrite !orb_true_iff, !Z.eqb_eq. tauto.
Qed.

(** One level up: the node count the loop computes from [n]. *)
Lemma next_bounds n k :
  1 < n -> 1 <= k ->
  1 <= cdiv (fl n) (2 ^ k) < n /\
  Z.log2_up (cdiv (fl n) (2 ^ k)) < Z.log2_up n.
Proof.
  intros Hn Hk.
  pose proof (pow2_pos k ltac:(lia)) as Pk.
  assert (P2 : 2 ^ 1 <= 2 ^ k) by (apply Z.pow_le_mono_r; lia).
  change (2 ^ 1) with 2 in P2.
  pose proof (fl_pos n ltac:(lia)) as Hfl.
  pose proof (cdiv_spec (fl n) (2 ^ k) Pk) as Hc.
  destruct (Z.log2_up_spec n Hn) as [Hlo Hhi].
  pose proof (Z.log2_up_pos n Hn) as HU.
  set (U := Z.log2_up n) in *.
  pose proof (fl_le_pow2 n U ltac:(lia) ltac:(lia) Hhi) as HflU.
  assert (EU : 2 ^ U = 2 * 2 ^ Z.pred U).
  { replace U with (1 + Z.pred U) at 1 by lia. rewrite pow2_split by lia.
    reflexivity. }
  pose proof (pow2_pos (Z.pred U) ltac:(lia)) as PU.
  set (c := cdiv (fl n) (2 ^ k)) in *.
  assert (Hc1 : 1 <= c) by nia.
  assert (Hc2 : c <= 2 ^ Z.pred U) by nia.
  split; [lia |].
  apply (proj1 (Z.log2_up_le_pow2 c (Z.pred U) ltac:(lia))) in Hc2. lia.
Qed.

Lemma loop_stop fuel f s :
  l_nodes s <= 1 -> estimate_loop (S fuel) f s = Some (Ok s).
Proof.
  intros H. cbn [estimate_loop].
  destruct (Z.ltb_spec 1 (l_nodes s)); [lia | reflexivity].
Qed.

Lemma loop_step fuel k s :
  1 <= k <= 3 -> 1 < l_nodes s ->
  estimate_loop (S fuel) (2 ^ k) s =
    if 2 ^ (1024 + k) <=? fl (l_nodes s) then Some (Raise OverflowError)
    else estimate_loop fuel (2 ^ k)
           (mkLoop (l_height s + 1) (cdiv (fl (l_nodes s)) (2 ^ k))
                   (l_total s + l_nodes s) (l_levels s ++ [l_nodes s])).
Proof.
  intros Hk Hn. cbn [estimate_loop].
  destruct (Z.ltb_spec 1 (l_nodes s)); [| lia].
  rewrite int_truediv_pow2 by lia.
  destruct (2 ^ (1024 + k) <=? fl (l_nodes s)); [reflexivity |].
  rewrite ceil_mant53 by lia. reflexivity.
Qed.

(** The loop ends within [log2_up nodes + 1] iterations. *)
Lemma estimate_loop_enough k fuel s :
  1 <= k <= 3 -> 1 <= l_nodes s ->
  Z.log2_up (l_nodes s) < Z.of_nat fuel ->
  exists r, estimate_loop fuel (2 ^ k) s = Some r.
Proof.
  intros Hk. revert s.
  induction fuel as [| fuel IH]; intros s Hn Hf.
  - pose proof (Z.log2_up_nonneg (l_nodes s)). lia.
  - destruct (Z.le_gt_cases (l_nodes s) 1) as [H1 | H1].
    + rewrite loop_stop by assumption. eauto.
    + rewrite loop_step by lia.
      destruct (2 ^ (1024 + k) <=? fl (l_nodes s)); [eauto |].
      destruct (next_bounds (l_nodes s) k ltac:(lia) ltac:(lia)) as [B1 B2].
      apply IH; cbn [l_nodes]; lia.
Qed.

(** More iterations than needed change nothing. *)
Lemma estimate_loop_more fuel f s r j :
  estimate_loop fuel f s = Some r ->
  estimate_loop (fuel + j) f s = Some r.
Proof.
  revert s. induction fuel as [| fuel IH]; intros s H; [discriminate |].
  cbn [Nat.add estimate_loop] in *.
  destruct (1 <? l_nodes s); [| exact H].
  destruct (PyFloat.int_truediv (l_nodes s) f); [| exact H].
  now apply IH.
Qed.

(** The only exception the loop can raise is the float overflow of
    [nodes / fanout]. *)
Lemma estimate_loop_raise k fuel s e :
  1 <= k <= 3 -> 1 <= l_nodes s ->
  estimate_loop fuel (2 ^ k) s = Some (Raise e) -> e = OverflowError.
Proof.
  intros Hk. revert s.
  induction fuel as [| fuel IH]; intros s Hn H; [discriminate |].
  destruct (Z.le_gt_cases (l_nodes s) 1) as [H1 | H1].
  - rewrite loop_stop in H by assumption. discriminate.
  - rewrite loop_step in H by lia.
    destruct (2 ^ (1024 + k) <=? fl (l_nodes s)).
    + now inversion H.
    + destruct (next_bounds (l_nodes s) k ltac:(lia) ltac:(lia)) as [B1 B2].
      apply IH in H; [assumption | cbn [l_nodes]; lia].
Qed.

(** No overflow can occur below [2 ^ 1024]. *)
Lemma estimate_loop_ok k fuel s :
  1 <= k <= 3 -> 1 <= l_nodes s <= 2 ^ 1024 ->
  Z.log2_up (l_nodes s) < Z.of_nat fuel ->
  exists r, estimate_loop fuel (2 ^ k) s = Some (Ok r).
Proof.
  intros Hk. revert s.
  induction fuel as [| fuel IH]; intros s Hn Hf.
  - pose proof (Z.log2_up_nonneg (l_nodes s)). lia.
  - destruct (Z.le_gt_cases (l_nodes s) 1) as [H1 | H1].
    + rewrite loop_stop by assumption. eauto.
    + rewrite loop_step by lia.
      pose proof (fl_le_pow2 (l_nodes s) 1024 ltac:(lia) ltac:(lia) ltac:(lia)).
      assert (2 ^ 1024 < 2 ^ (1024 + k)) by (apply Z.pow_lt_mono_r; lia).
      destruct (Z.leb_spec (2 ^ (1024 + k)) (fl (l_nodes s))); [lia |].
      destruct (next_bounds (l_nodes s) k ltac:(lia) ltac:(lia)) as [B1 B2].
      apply IH; cbn [l_nodes]; lia.
Qed.

End Loop.

Section Shape.

(** What the loop leaves behind: the levels it appended, their number and
    their sum. *)
Lemma estimate_loop_shape k fuel s r :
  1 <= k <= 3 -> 1 <= l_nodes s ->
  estimate_loop fuel (2 ^ k) s = Some (Ok r) ->
  exists tail,
    l_levels r ++ [l_nodes r] = l_levels s ++ (l_nodes s :: tail) /\
    chain (fun a b => 1 < a /\ b = cdiv (fl a) (2 ^ k)) (l_nodes s :: tail) /\
    last (l_nodes s :: tail) 1 = 1 /\
    l_height r = l_height s + Z.of_nat (List.length tail) /\
    l_total r + l_nodes r = l_total s + sum_list (l_nodes s :: tail) /\
    Forall (fun x => 1 <= x <= l_nodes s) (l_nodes s :: tail).
Proof.
  intros Hk. revert s.
  induction fuel as [| fuel IH]; intros s Hn H; [discriminate |].
  destruct (Z.le_gt_cases (l_nodes s) 1) as [H1 | H1].
  - rewrite loop_stop in H by assumption. inversion H; subst r.
    exists []. cbn. repeat split; try lia.
    constructor; [lia | constructor].
  - rewrite loop_step in H by lia.
    destruct (2 ^ (1024 + k) <=? fl (l_nodes s)); [discriminate |].
    destruct (next_bounds (l_nodes s) k ltac:(lia) ltac:(lia)) as [B1 B2].
    apply IH in H; [| cbn [l_nodes]; lia].
    cbn [l_nodes l_levels l_height l_total] in H.
    destruct H as (tail & E & C & La & Hh & Ht & Fa).
    exists (cdiv (fl (l_nodes s)) (2 ^ k) :: tail).
    repeat split.
    + rewrite E, <- app_assoc. reflexivity.
    + lia.
    + exact C.
    + exact La.
    + rewrite Hh. cbn [List.length]. lia.
    + rewrite Ht. cbn [sum_list fold_right]. unfold sum_list. lia.
    + constructor; [lia |].
      eapply Forall_impl; [| exact Fa]. cbn. intros; lia.
Qed.

(** Below [2 ^ 53] every quotient is exact. *)
Lemma chain_exact k n tail :
  n <= 2 ^ 53 ->
  Forall (fun x => 1 <= x <= n) (n :: tail) ->
  chain (fun a b => 1 < a /\ b = cdiv (fl a) (2 ^ k)) (n :: tail) ->
  chain (fun a b => b = cdiv a (2 ^ k)) (n :: tail).
Proof.
  intros Hn Fa. 
  assert (Fb : Forall (fun x => 1 <= x <= 2 ^ 53) (n :: tail)).
  { eapply Forall_impl; [| exact Fa]. cbn. intros; lia. }
  clear Fa Hn. revert n Fb.
  induction tail as [| b tail IH]; intros n Fb C; [exact I |].
  destruct C as [[_ E] C].
  inversion Fb as [| ? ? Hx Fb']; subst.
  rewrite (fl_exact n Hx) in *.
  split; [reflexivity | now apply IH].
Qed.

(** Two runs of the loop: at most as many nodes, at least as large a
    fanout, give at most as many levels and at most as many nodes in
    total. *)
Lemma estimate_loop_compare k1 k2 fuel1 :
  1 <= k1 -> k1 <= k2 -> k2 <= 3 ->
  forall fuel2 s1 s2 r1,
    1 <= l_nodes s2 -> l_nodes s2 <= l_nodes s1 ->
    Z.log2_up (l_nodes s2) < Z.of_nat fuel2 ->
    estimate_loop fuel1 (2 ^ k1) s1 = Some (Ok r1) ->
    exists r2,
      estimate_loop fuel2 (2 ^ k2) s2 = Some (Ok r2) /\
      l_height r2 - l_height s2 <= l_height r1 - l_height s1 /\
      l_total r2 + l_nodes r2 - l_total s2
        <= l_total r1 + l_nodes r1 - l_total s1.
Proof.
  intros Hk1 Hk12 Hk2.
  induction fuel1 as [| fuel1 IH]; intros fuel2 s1 s2 r1 Hn2 Hle Hf H;
    [discriminate |].
  destruct fuel2 as [| fuel2].
  { pose proof (Z.log2_up_nonneg (l_nodes s2)). lia. }
  destruct (Z.le_gt_cases (l_nodes s2) 1) as [H2 | H2].
  - (* the second run stops at once *)
    rewrite loop_stop by assumption. exists s2. split; [reflexivity |].
    destruct (estimate_loop_shape k1 (S fuel1) s1 r1 ltac:(lia) ltac:(lia) H)
      as (tail & _ & _ & _ & Hh & Ht & Fa).
    assert (0 <= sum_list tail).
    { inversion Fa as [| ? ? _ Ft]; subst. clear - Ft.
      induction Ft as [| x l Hx _ IHl]; cbn; [lia |].
      unfold sum_list in IHl. lia. }
    cbn [sum_list fold_right] in Ht. unfold sum_list in *. lia.
  - rewrite loop_step in H by lia.
    destruct (Z.leb_spec (2 ^ (1024 + k1)) (fl (l_nodes s1))) as [| Hov];
      [discriminate |].
    rewrite loop_step by lia.
    pose proof (fl_mono (l_nodes s2) (l_nodes s1) ltac:(lia) Hle) as Hfl.
    assert (2 ^ (1024 + k1) <= 2 ^ (1024 + k2))
      by (apply Z.pow_le_mono_r; lia).
    destruct (Z.leb_spec (2 ^ (1024 + k2)) (fl (l_nodes s2))); [lia |].
    destruct (next_bounds (l_nodes s2) k2 ltac:(lia) ltac:(lia)) as [B1 B2].
    assert (Hnext : cdiv (fl (l_nodes s2)) (2 ^ k2)
                    <= cdiv (fl (l_nodes s1)) (2 ^ k1)).
    { pose proof (fl_pos (l_nodes s2) ltac:(lia)).
      pose proof (pow2_pos k1 ltac:(lia)). pose proof (pow2_pos k2 ltac:(lia)).
      assert (2 ^ k1 <= 2 ^ k2) by (apply Z.pow_le_mono_r; lia).
      pose proof (cdiv_spec (fl (l_nodes s2)) (2 ^ k2) ltac:(lia)).
      pose proof (cdiv_spec (fl (l_nodes s1)) (2 ^ k1) ltac:(lia)).
      nia. }
    match type of H with
    | estimate_loop _ _ ?s1' = _ =>
        destruct (IH fuel2 s1'
                (mkLoop (l_height s2 + 1) (cdiv (fl (l_nodes s2)) (2 ^ k2))
                        (l_total s2 + l_nodes s2) (l_levels s2 ++ [l_nodes s2]))
                r1) as (r2 & E & Hh & Ht);
      [cbn [l_nodes]; lia | cbn [l_nodes]; exact Hnext | cbn [l_nodes]; lia
      | exact H |]
    end.
    exists r2. split; [exact E |].
    cbn [l_height l_total] in Hh, Ht. lia.
Qed.

End Shape.

Section FloatOrder.
Import PyFloat.

(** Comparing two floats at any common exponent below both. *)
Lemma fltb_scaled x y t :
  t <= expo x -> t <= expo y ->
  fltb x y = (mant x * 2 ^ (expo x - t) <? mant y * 2 ^ (expo y - t)).
Proof.
  intros Hx Hy. unfold fltb.
  set (s := Z.min (expo x) (expo y)).
  assert (Hs : t <= s) by (unfold s; lia).
  assert (Ex : 2 ^ (expo x - t) = 2 ^ (expo x - s) * 2 ^ (s - t)).
  { rewrite <- pow2_split by (unfold s; lia). f_equal; lia. }
  assert (Ey : 2 ^ (expo y - t) = 2 ^ (expo y - s) * 2 ^ (s - t)).
  { rewrite <- pow2_split by (unfold s; lia). f_equal; lia. }
  rewrite Ex, Ey.
  pose proof (pow2_pos (s - t) ltac:(lia)) as P.
  destruct (Z.ltb_spec (mant x * 2 ^ (expo x - s)) (mant y * 2 ^ (expo y - s))),
           (Z.ltb_spec (mant x * (2 ^ (expo x - s) * 2 ^ (s - t)))
                       (mant y * (2 ^ (expo y - s) * 2 ^ (s - t))));
    try reflexivity; nia.
Qed.

Lemma fltb_asym x y : fltb x y = true -> fltb y x = false.
Proof.
  unfold fltb. rewrite (Z.min_comm (expo y)). intros H.
  apply Z.ltb_lt in H. apply Z.ltb_ge. lia.
Qed.

(** Below something that is not below [z]: below [z]. *)
Lemma fltb_through x y z :
  fltb x y = true -> fltb z y = false -> fltb x z = true.
Proof.
  set (t := Z.min (expo x) (Z.min (expo y) (expo z))).
  rewrite (fltb_scaled x y t), (fltb_scaled z y t), (fltb_scaled x z t)
    by (unfold t; lia).
  intros H1 H2. apply Z.ltb_lt in H1. apply Z.ltb_ge in H2.
  apply Z.ltb_lt. lia.
Qed.

Lemma xltb_asym x y : xltb x y = true -> xltb y x = false.
Proof.
  destruct x, y; cbn; try congruence. apply fltb_asym.
Qed.

Lemma xltb_through x y z :
  xltb x y = true -> xltb z y = false -> xltb x z = true.
Proof.
  destruct x, y, z; cbn; try congruence. apply fltb_through.
Qed.

Lemma xltb_trans x y z :
  xltb x y = true -> xltb y z = true -> xltb x z = true.
Proof.
  intros H1 H2. apply (xltb_through x y z H1). now apply xltb_asym.
Qed.

Lemma xltb_irrefl x : xltb x x = false.
Proof.
  destruct (xltb x x) eqn:E; [| reflexivity].
  pose proof (xltb_asym x x E). congruence.
Qed.

End FloatOrder.

Section MinBy.
Import Selector.
Context {A : Type} (key : A -> result PyFloat.xfloat).

Lemma min_loop_first_minimum rest :
  forall pre best mid vb r,
    key best = Ok vb ->
    (forall x, In x pre ->
       exists v, key x = Ok v /\ PyFloat.xltb vb v = true) ->
    (forall x, In x mid ->
       exists v, key x = Ok v /\ PyFloat.xltb v vb = false) ->
    min_loop key rest best vb = Ok r ->
    first_minimum key (pre ++ best :: mid ++ rest) r.
Proof.
  induction rest as [| item rest IH]; intros pre best mid vb r Hb Hpre Hmid H.
  - cbn in H. inversion H; subst r. rewrite app_nil_r.
    exists pre, mid, vb. auto.
  - cbn [min_loop] in H. unfold bind in H.
    destruct (key item) as [k | e] eqn:Ek; [| discriminate].
    destruct (PyFloat.xltb k vb) eqn:Elt.
    + (* the item becomes the best *)
      specialize (IH (pre ++ best :: mid) item [] k r Ek).
      replace (pre ++ best :: mid ++ item :: rest)
        with ((pre ++ best :: mid) ++ item :: [] ++ rest)
        by (rewrite <- app_assoc; reflexivity).
      apply IH; [| intros x [] | exact H].
      intros x Hx. apply in_app_or in Hx.
      destruct Hx as [Hx | [<- | Hx]].
      * destruct (Hpre x Hx) as (v & Ev & Hv).
        exists v. split; [exact Ev |]. now apply (xltb_trans k vb v).
      * exists vb. auto.
      * destruct (Hmid x Hx) as (v & Ev & Hv).
        exists v. split; [exact Ev |]. now apply (xltb_through k vb v).
    + specialize (IH pre best (mid ++ [item]) vb r Hb Hpre).
      replace (pre ++ best :: mid ++ item :: rest)
        with (pre ++ best :: (mid ++ [item]) ++ rest)
        by (rewrite <- (app_assoc mid); reflexivity).
      apply IH; [| exact H].
      intros x Hx. apply in_app_or in Hx.
      destruct Hx as [Hx | [<- | []]]; [now apply Hmid |].
      exists k. auto.
Qed.

Lemma min_by_first_minimum items best :
  min_by key items = Ok best -> first_minimum key items best.
Proof.
  destruct items as [| item rest]; [discriminate |].
  cbn [min_by]. unfold bind.
  destruct (key item) as [k | e] eqn:Ek; [| discriminate].
  intros H.
  apply (min_loop_first_minimum rest [] item [] k best Ek); auto;
    intros x [].
Qed.

Lemma min_loop_defined rest :
  forall best vb,
    (forall x, In x rest -> exists v, key x = Ok v) ->
    exists r, min_loop key rest best vb = Ok r.
Proof.
  induction rest as [| item rest IH]; intros best vb Hk; cbn [min_loop].
  - eauto.
  - destruct (Hk item (or_introl eq_refl)) as [k Ek].
    rewrite Ek. cbn [bind].
    destruct (PyFloat.xltb k vb); apply IH; intros x Hx; apply Hk; now right.
Qed.

Lemma min_by_defined items :
  items <> [] ->
  (forall x, In x items -> exists v, key x = Ok v) ->
  exists r, min_by key items = Ok r.
Proof.
  destruct items as [| item rest]; [congruence |]. intros _ Hk.
  cbn [min_by].
  destruct (Hk item (or_introl eq_refl)) as [k Ek]. rewrite Ek. cbn [bind].
  apply min_loop_defined. intros x Hx. apply Hk. now right.
Qed.

End MinBy.

Section EstimateTree.

Lemma loop_bound_spec leaves :
  Z.log2_up leaves < Z.of_nat (loop_bound leaves).
Proof.
  unfold loop_bound. pose proof (Z.log2_up_nonneg leaves). lia.
Qed.

Lemma estimate_tree_fuel_valid fuel leaves f :
  1 <= leaves -> allowed_fanout f = true ->
  estimate_tree_fuel fuel leaves f =
    match estimate_loop fuel f (mkLoop 0 leaves 0 []) with
    | None => None
    | Some (Raise e) => Some (Raise e)
    | Some (Ok s) =>
        Some (Ok (mkTree (l_height s) (l_total s + l_nodes s)
                         (l_levels s ++ [l_nodes s])))
    end.
Proof.
  intros Hl Hf. unfold estimate_tree_fuel.
  destruct (Z.leb_spec leaves 0); [lia |].
  rewrite Hf. reflexivity.
Qed.

(** A run with at least [loop_bound leaves] iterations gives the outcome
    of [estimate_tree]. *)
Lemma estimate_tree_fuel_stable fuel leaves f :
  1 <= leaves -> allowed_fanout f = true ->
  (loop_bound leaves <= fuel)%nat ->
  estimate_tree_fuel fuel leaves f = estimate_tree leaves f /\
  exists r, estimate_tree leaves f = Some r.
Proof.
  intros Hl Hf Hfuel.
  destruct (allowed_fanout_pow2 f Hf) as (k & Hk & ->).
  unfold estimate_tree. rewrite !estimate_tree_fuel_valid by assumption.
  destruct (estimate_loop_enough k (loop_bound leaves) (mkLoop 0 leaves 0 []) Hk)
    as [r Hr]; [cbn; lia | cbn; apply loop_bound_spec |].
  replace fuel with (loop_bound leaves + (fuel - loop_bound leaves))%nat by lia.
  rewrite (estimate_loop_more _ _ _ _ _ Hr), Hr.
  split; [reflexivity |]. destruct r; eauto.
Qed.

Lemma estimate_tree_ok leaves f :
  1 <= leaves <= 2 ^ 1024 -> allowed_fanout f = true ->
  exists t, estimate_tree leaves f = Some (Ok t).
Proof.
  intros Hl Hf.
  destruct (allowed_fanout_pow2 f Hf) as (k & Hk & ->).
  unfold estimate_tree. rewrite estimate_tree_fuel_valid by (assumption || lia).
  destruct (estimate_loop_ok k (loop_bound leaves) (mkLoop 0 leaves 0 []) Hk)
    as [r Hr]; [cbn; lia | cbn; apply loop_bound_spec |].
  rewrite Hr. eauto.
Qed.

(** The shape of every tree the estimator returns, with the quotients as
    the floats give them. *)
Lemma estimate_tree_shape leaves k t :
  1 <= k <= 3 ->
  estimate_tree leaves (2 ^ k) = Some (Ok t) ->
  exists tail,
    nodesPerLevel t = leaves :: tail /\
    chain (fun a b => 1 < a /\ b = cdiv (fl a) (2 ^ k)) (leaves :: tail) /\
    last (leaves :: tail) 1 = 1 /\
    height t = Z.of_nat (List.length tail) /\
    totalNodes t = sum_list (leaves :: tail) /\
    Forall (fun x => 1 <= x <= leaves) (leaves :: tail).
Proof.
  intros Hk H. unfold estimate_tree, estimate_tree_fuel in H.
  destruct (Z.leb_spec leaves 0); [discriminate |].
  destruct (negb (allowed_fanout (2 ^ k))); [discriminate |].
  destruct (estimate_loop (loop_bound leaves) (2 ^ k) (mkLoop 0 leaves 0 []))
    as [[s | e] |] eqn:E; try discriminate.
  inversion H; subst t; clear H. cbn [nodesPerLevel height totalNodes].
  apply estimate_loop_shape in E; [| lia | cbn; lia].
  cbn [l_nodes l_levels l_height l_total app] in E.
  destruct E as (tail & E1 & C & La & Hh & Ht & Fa).
  exists tail. repeat split; try assumption; lia.
Qed.

(** Up to [2 ^ 53] leaves, each level is the exact ceiling quotient of
    the level below. *)
Lemma estimate_tree_shape_exact leaves f t :
  1 <= leaves <= 2 ^ 53 -> allowed_fanout f = true ->
  estimate_tree leaves f = Some (Ok t) ->
  hd 0 (nodesPerLevel t) = leaves /\
  last (nodesPerLevel t) 0 = 1 /\
  chain (fun a b => b = cdiv a f) (nodesPerLevel t) /\
  height t = Z.of_nat (List.length (nodesPerLevel t)) - 1 /\
  (leaves = 1 -> nodesPerLevel t = [1] /\ height t = 0).
Proof.
  intros Hl Hf H.
  destruct (allowed_fanout_pow2 f Hf) as (k & Hk & ->).
  destruct (estimate_tree_shape leaves k t Hk H)
    as (tail & E & C & La & Hh & _ & Fa).
  rewrite E. repeat split.
  - rewrite <- La. destruct tail; [reflexivity |].
    cbn [last]. clear. generalize z. induction tail; intros; [reflexivity|].
    apply IHtail.
  - apply chain_exact; [lia | exact Fa | exact C].
  - rewrite Hh. cbn [List.length]. lia.
  - subst leaves. destruct tail as [| b tail]; [reflexivity |].
    destruct C as [[C _] _]. lia.
  - subst leaves. destruct tail as [| b tail]; [rewrite Hh; reflexivity |].
    destruct C as [[C _] _]. lia.
Qed.

End EstimateTree.

Section AppClaims.

(** C2, at the input [leaves = 2 ** 53 + 1], [fanout = 2]: the estimator
    returns a tree whose second level holds [2 ** 52] nodes and whose
    height is 53, whereas the ceiling of [(2 ** 53 + 1) / 2] is
    [2 ** 52 + 1]: [nodes / fanout] is a float division and rounds the
    quotient to 53 bits before [math.ceil] sees it. *)
Theorem estimate_tree_inexact_above_2_53 :
  exists t,
    estimate_tree (2 ^ 53 + 1) 2 = Some (Ok t) /\
    nth 0 (nodesPerLevel t) 0 = 2 ^ 53 + 1 /\
    nth 1 (nodesPerLevel t) 0 = 2 ^ 52 /\
    cdiv (2 ^ 53 + 1) 2 = 2 ^ 52 + 1 /\
    height t = 53.
Proof.
  eexists. split; [vm_compute; reflexivity |].
  repeat split; vm_compute; reflexivity.
Qed.

(** C3: whenever the evaluator returns a layout, its fields satisfy
    proofBranchLength = treeHeight, perProofBytes = (proofBranchLength + 1)
    * hashBytes, perProofBits = perProofBytes * 8 and totalCommitmentBytes =
    totalNodes * hashBytes, with hashBytes the style's hash size; it does
    return one for every leaves from 1 to [2 ** 1024]; and for one million
    leaves, fanout 2 and the aztec style the height is 20 and a proof
    takes 672 bytes. *)
Theorem build_layout_fields :
  (forall st leaves fanout r,
      1 <= leaves -> fanout = 2 \/ fanout = 4 \/ fanout = 8 ->
      build_layout st leaves fanout = Some (Ok r) ->
      proofBranchLength r = treeHeight r /\
      perProofBytes r = (proofBranchLength r + 1) * hashBytes r /\
      perProofBits r = perProofBytes r * 8 /\
      totalCommitmentBytes r = ltotalNodes r * hashBytes r /\
      hashBytes r = hash_bytes st) /\
  (forall st leaves fanout,
      1 <= leaves <= 2 ^ 1024 -> fanout = 2 \/ fanout = 4 \/ fanout = 8 ->
      exists r, build_layout st leaves fanout = Some (Ok r)) /\
  (exists r,
      build_layout aztec 1000000 2 = Some (Ok r) /\
      hashBytes r = 32 /\ treeHeight r = 20 /\ perProofBytes r = 672).
Proof.
  split; [| split].
  - intros st leaves fanout r _ _ H. unfold build_layout in H.
    destruct (estimate_tree leaves fanout) as [[t | e] |]; try discriminate.
    inversion H; subst r. cbn. repeat split; reflexivity.
  - intros st leaves fanout Hl Hf.
    apply allowed_fanout_iff in Hf.
    destruct (estimate_tree_ok leaves fanout Hl Hf) as [t Ht].
    unfold build_layout. rewrite Ht. eauto.
  - eexists. split; [vm_compute; reflexivity |].
    repeat split; reflexivity.
Qed.

Lemma build_layout_fields_witness :
  exists r,
    build_layout zama 10 4 = Some (Ok r) /\
    perProofBytes r = (proofBranchLength r + 1) * hashBytes r /\
    totalCommitmentBytes r = ltotalNodes r * hashBytes r.
Proof.
  assert (E : { r | build_layout zama 10 4 = Some (Ok r) })
    by (eexists; vm_compute; reflexivity).
  destruct E as [r E]. exists r. split; [exact E |].
  destruct (proj1 build_layout_fields zama 10 4 r
              ltac:(lia) ltac:(right; left; reflexivity) E)
    as (_ & H1 & _ & H2 & _).
  split; [exact H1 | exact H2].
Defined.

(** C4: for fixed leaves and a fixed style with a non-negative hash size,
    a larger allowed fanout gives a tree that is no higher and a
    commitment that takes no more bytes: whenever the evaluator returns a
    layout for the smaller fanout, it returns one for the larger fanout,
    with treeHeight and totalCommitmentBytes at most as large. *)
Theorem build_layout_fanout_monotone st leaves f1 f2 r1 :
  1 <= leaves -> 0 <= hash_bytes st ->
  f1 = 2 \/ f1 = 4 \/ f1 = 8 ->
  f2 = 2 \/ f2 = 4 \/ f2 = 8 ->
  f1 <= f2 ->
  build_layout st leaves f1 = Some (Ok r1) ->
  exists r2,
    build_layout st leaves f2 = Some (Ok r2) /\
    treeHeight r2 <= treeHeight r1 /\
    totalCommitmentBytes r2 <= totalCommitmentBytes r1.
Proof.
  intros Hl Hh Hf1 Hf2 Hle H.
  assert (exists k1 k2, 1 <= k1 /\ k1 <= k2 /\ k2 <= 3 /\
                        f1 = 2 ^ k1 /\ f2 = 2 ^ k2) as (k1 & k2 & K1 & K12 & K2 & -> & ->).
  { destruct Hf1 as [-> | [-> | ->]], Hf2 as [-> | [-> | ->]]; try lia;
      [exists 1, 1 | exists 1, 2 | exists 1, 3 | exists 2, 2 | exists 2, 3
      | exists 3, 3]; repeat split; lia. }
  unfold build_layout in *.
  destruct (estimate_tree leaves (2 ^ k1)) as [[t1 | e] |] eqn:E1;
    try discriminate.
  inversion H; subst r1; clear H. cbn [treeHeight totalCommitmentBytes].
  unfold estimate_tree in *.
  rewrite estimate_tree_fuel_valid in *
    by (lia || (apply allowed_fanout_iff;
                destruct (Z.eq_dec k1 1) as [-> |]; [now left |];
                destruct (Z.eq_dec k1 2) as [-> |]; [now right; left |];
                replace k1 with 3 by lia; now right; right)
             || idtac).
  rewrite estimate_tree_fuel_valid
    by (lia || (apply allowed_fanout_iff;
                destruct (Z.eq_dec k2 1) as [-> |]; [now left |];
                destruct (Z.eq_dec k2 2) as [-> |]; [now right; left |];
                replace k2 with 3 by lia; now right; right)).
  destruct (estimate_loop (loop_bound leaves) (2 ^ k1) (mkLoop 0 leaves 0 []))
    as [[s1 | e] |] eqn:L1; try discriminate.
  inversion E1; subst t1; clear E1.
  destruct (estimate_loop_compare k1 k2 (loop_bound leaves) K1 K12 K2
              (loop_bound leaves) (mkLoop 0 leaves 0 []) (mkLoop 0 leaves 0 [])
              s1) as (s2 & L2 & Hh2 & Ht2);
    [cbn; lia | cbn; lia | cbn; apply loop_bound_spec | exact L1 |].
  rewrite L2. eexists. split; [reflexivity |].
  cbn [l_height l_total treeHeight totalCommitmentBytes height totalNodes] in *.
  split; [lia | apply Z.mul_le_mono_nonneg_r; lia].
Qed.

Lemma build_layout_fanout_monotone_witness :
  exists r1 r2,
    build_layout aztec 1000 2 = Some (Ok r1) /\
    build_layout aztec 1000 8 = Some (Ok r2) /\
    treeHeight r2 <= treeHeight r1 /\
    totalCommitmentBytes r2 <= totalCommitmentBytes r1.
Proof.
  assert (E1 : { r | build_layout aztec 1000 2 = Some (Ok r) })
    by (eexists; vm_compute; reflexivity).
  destruct E1 as [r1 E1]. exists r1.
  destruct (build_layout_fanout_monotone aztec 1000 2 8 r1
              ltac:(lia) ltac:(cbn; lia) ltac:(now left)
              ltac:(now right; right) ltac:(lia) E1)
    as (r2 & E2 & H).
  exists r2. split; [exact E1 |]. split; [exact E2 | exact H].
Defined.

Lemma styles_hash_bytes_nonneg k st :
  lookup k STYLES = Some st -> 0 < hash_bytes st.
Proof.
  cbn. repeat (destruct (String.eqb k _); [intros [= <-]; cbn; lia |]).
  discriminate.
Qed.

End AppClaims.

Section AppErrors.

Lemma estimate_tree_value_error leaves f msg :
  estimate_tree leaves f = Some (Raise (ValueError msg)) ->
  leaves <= 0 \/ allowed_fanout f = false.
Proof.
  intros H.
  destruct (Z.leb_spec leaves 0) as [| Hl]; [now left |].
  destruct (allowed_fanout f) eqn:Hf; [exfalso | now right].
  destruct (allowed_fanout_pow2 f Hf) as (k & Hk & ->).
  unfold estimate_tree in H.
  rewrite estimate_tree_fuel_valid in H by (assumption || lia).
  destruct (estimate_loop (loop_bound leaves) (2 ^ k) (mkLoop 0 leaves 0 []))
    as [[s | e] |] eqn:E; try discriminate.
  apply estimate_loop_raise in E; [| lia | cbn; lia].
  subst e. discriminate.
Qed.

(** C5: the estimator raises ValueError exactly when leaves <= 0 or the
    fanout is not 2, 4 or 8, so no valid input raises it; leaves = 0
    raises it and fanout = 3 raises it; and every valid input with at most
    [2 ** 1024] leaves returns a tree. *)
Theorem estimate_tree_invalid_input :
  (forall leaves fanout,
      (exists msg, estimate_tree leaves fanout = Some (Raise (ValueError msg)))
      <-> (leaves <= 0 \/ ~ (fanout = 2 \/ fanout = 4 \/ fanout = 8))) /\
  (forall fanout,
      estimate_tree 0 fanout
      = Some (Raise (ValueError "leaves must be positive"))) /\
  (forall leaves,
      0 < leaves ->
      estimate_tree leaves 3
      = Some (Raise (ValueError "fanout must be one of 2, 4, or 8"))) /\
  (forall leaves fanout,
      1 <= leaves <= 2 ^ 1024 -> fanout = 2 \/ fanout = 4 \/ fanout = 8 ->
      exists t, estimate_tree leaves fanout = Some (Ok t)).
Proof.
  split; [| split; [| split]].
  - intros lv f. split.
    + intros [msg H]. apply estimate_tree_value_error in H.
      destruct H as [H | H]; [now left | right].
      rewrite <- allowed_fanout_iff. congruence.
    + intros [H | H]; unfold estimate_tree, estimate_tree_fuel.
      * destruct (Z.leb_spec lv 0); [eauto | lia].
      * destruct (lv <=? 0); [eauto |].
        destruct (allowed_fanout f) eqn:Hf; [| cbn; eauto].
        apply allowed_fanout_iff in Hf. contradiction.
  - intros f. reflexivity.
  - intros lv Hl. unfold estimate_tree, estimate_tree_fuel.
    destruct (Z.leb_spec lv 0); [lia | reflexivity].
  - intros lv f Hl Hf. apply estimate_tree_ok; [exact Hl |].
    now apply allowed_fanout_iff.
Qed.

Lemma estimate_tree_invalid_input_witness :
  (exists t, estimate_tree 10 2 = Some (Ok t)) /\
  estimate_tree 5 3
  = Some (Raise (ValueError "fanout must be one of 2, 4, or 8")).
Proof.
  destruct estimate_tree_invalid_input as (_ & _ & H3 & H4).
  split.
  - apply (H4 10 2); [| now left].
    split; [lia | vm_compute; discriminate].
  - apply (H3 5). lia.
Defined.

(** Beyond the range of a double: with [2 ** 1025] leaves and fanout 2
    the first [nodes / fanout] does not fit a float and the estimator
    stops with OverflowError, which is not a ValueError. *)
Lemma estimate_tree_valid_input_fails :
  1 <= 2 ^ 1025 /\ (2 = 2 \/ 2 = 4 \/ 2 = 8) /\
  estimate_tree (2 ^ 1025) 2 = Some (Raise OverflowError).
Proof.
  split; [vm_compute; discriminate |].
  split; [now left |]. vm_compute. reflexivity.
Qed.

(** C9: for every valid input the level-reduction loop ends, within
    [loop_bound leaves] iterations and with the same outcome however many
    more are allowed; each [ceil(nodes / fanout)] the loop computes from a
    value above 1 is at least 1 and strictly smaller; and up to
    [2 ** 1024] leaves the outcome is a tree. *)
Theorem estimate_tree_terminates leaves fanout :
  1 <= leaves -> fanout = 2 \/ fanout = 4 \/ fanout = 8 ->
  (exists r, forall fuel,
      (loop_bound leaves <= fuel)%nat ->
      estimate_tree_fuel fuel leaves fanout = Some r) /\
  (forall nodes q,
      1 < nodes -> PyFloat.int_truediv nodes fanout = Ok q ->
      1 <= PyFloat.ceil q < nodes) /\
  (leaves <= 2 ^ 1024 -> exists t, estimate_tree leaves fanout = Some (Ok t)).
Proof.
  intros Hl Hf. apply allowed_fanout_iff in Hf.
  split; [| split].
  - destruct (estimate_tree_fuel_stable (loop_bound leaves) leaves fanout
                Hl Hf (Nat.le_refl _)) as [_ [r Hr]].
    exists r. intros fuel Hfuel.
    destruct (estimate_tree_fuel_stable fuel leaves fanout Hl Hf Hfuel)
      as [E _].
    now rewrite E.
  - destruct (allowed_fanout_pow2 fanout Hf) as (k & Hk & ->).
    intros nodes q Hn Hq.
    rewrite int_truediv_pow2 in Hq by lia.
    destruct (2 ^ (1024 + k) <=? fl nodes); [discriminate |].
    inversion Hq; subst q. rewrite ceil_mant53 by lia.
    apply next_bounds; lia.
  - intros Hhi. apply estimate_tree_ok; [lia | exact Hf].
Qed.

Lemma estimate_tree_terminates_witness :
  exists r, forall fuel,
    (loop_bound 1000 <= fuel)%nat -> estimate_tree_fuel fuel 1000 4 = Some r.
Proof.
  destruct (estimate_tree_terminates 1000 4 ltac:(lia) ltac:(right; now left))
    as [H _].
  exact H.
Defined.

(** The bound [2 ** 1024] cannot be dropped from the last part: with
    [2 ** 1030] leaves and fanout 8 the run ends in OverflowError, through
    the float division, instead of a tree. *)
Lemma estimate_tree_not_total :
  ~ (forall leaves fanout,
        1 <= leaves -> fanout = 2 \/ fanout = 4 \/ fanout = 8 ->
        exists t, estimate_tree leaves fanout = Some (Ok t)).
Proof.
  intros H.
  assert (E : estimate_tree (2 ^ 1030) 8 = Some (Raise OverflowError))
    by (vm_compute; reflexivity).
  assert (P : 1 <= 2 ^ 1030) by (vm_compute; discriminate).
  pose proof (H (2 ^ 1030) 8 P (or_intror (or_intror eq_refl))) as [t Ht].
  congruence.
Qed.

End AppErrors.

Section SizerClaims.
Import Sizer.

(** C1, at the input [leaves = 125], [arity = 5]: with the doubles
    nearest to [ln 125] and [ln 5] for the two logarithms, their float
    quotient is [3.0000000000000004], so the sizer returns height 4, 625
    full leaves and 500 padding leaves, although [5 ** 3 >= 125] already
    holds: the height is not the smallest one. *)
Theorem compute_layout_height_not_minimal (math_log : Z -> PyFloat.float) :
  math_log 125 = PyFloat.mkfloat 5436197987035623 (-50) ->
  math_log 5 = PyFloat.mkfloat 7248263982714163 (-52) ->
  exists p,
    compute_layout math_log 125 5 = Ok p /\
    height p = 4 /\ fullLeaves p = 625 /\ paddingLeaves p = 500 /\
    125 <= 5 ^ 3 /\ 3 < height p.
Proof.
  intros H125 H5. unfold compute_layout, math_log_base.
  rewrite H125, H5. eexists. split; [vm_compute; reflexivity |].
  cbn [height fullLeaves paddingLeaves].
  repeat split; try reflexivity; vm_compute; congruence.
Qed.

Lemma compute_layout_height_not_minimal_witness :
  exists p,
    compute_layout log_table 125 5 = Ok p /\
    height p = 4 /\ fullLeaves p = 625 /\ paddingLeaves p = 500 /\
    125 <= 5 ^ 3 /\ 3 < height p.
Proof.
  apply (compute_layout_height_not_minimal log_table); reflexivity.
Defined.

End SizerClaims.

Section SweeperClaims.
Import Sweeper.

(** C8, at the input [leaf_min = 2 ** 53 + 1], [leaf_max = 2 ** 54],
    [step = 1]: [leaf_min] is not a power of two, yet [float(leaf_min)] is
    [2 ** 53] and its [log2] is the integer 53, so the generator takes the
    power-of-two branch and returns [2 ** 53; 2 ** 54], where doubling
    from [leaf_min] gives the single count [2 ** 53 + 1]. *)
Theorem generate_leaf_counts_takes_power_branch (math_log2 : Z -> PyFloat.float) :
  PyFloat.is_integer (math_log2 (2 ^ 53 + 1)) = true ->
  PyFloat.to_int (math_log2 (2 ^ 53 + 1)) = 53 ->
  PyFloat.is_integer (math_log2 (2 ^ 54)) = true ->
  PyFloat.to_int (math_log2 (2 ^ 54)) = 54 ->
  generate_leaf_counts math_log2 (2 ^ 53 + 1) (2 ^ 54) 1
    = Some (Ok [2 ^ 53; 2 ^ 54]) /\
  doubling_loop 3 (2 ^ 54) (2 ^ 53 + 1) [] = Some [2 ^ 53 + 1] /\
  (forall p, 2 ^ 53 + 1 <> 2 ^ p).
Proof.
  intros I1 T1 I2 T2. split; [| split].
  - unfold generate_leaf_counts, generate_leaf_counts_fuel, leaf_counts_bound.
    rewrite I1, I2, T1, T2. vm_compute. reflexivity.
  - vm_compute. reflexivity.
  - intros p E.
    destruct (Z.le_gt_cases p 0) as [Hp | Hp].
    + assert (2 ^ p <= 2 ^ 0).
      { destruct (Z.eq_dec p 0) as [-> | ]; [lia |].
        rewrite Z.pow_neg_r by lia. cbn; lia. }
      assert (0 < 2 ^ 53) by (apply Z.pow_pos_nonneg; lia).
      change (2 ^ 0) with 1 in *. lia.
    + assert (Z.even (2 ^ p) = true).
      { replace p with (1 + (p - 1)) by lia.
        rewrite Z.pow_add_r by lia. change (2 ^ 1) with 2.
        apply Z.even_mul. }
      rewrite <- E in H. vm_compute in H. discriminate.
Qed.

Lemma generate_leaf_counts_takes_power_branch_witness :
  generate_leaf_counts log2_through_float (2 ^ 53 + 1) (2 ^ 54) 1
    = Some (Ok [2 ^ 53; 2 ^ 54]).
Proof.
  apply (generate_leaf_counts_takes_power_branch log2_through_float);
    vm_compute; reflexivity.
Defined.

(** C10, at the input [leaf_min = 2 ** 53], [leaf_max = 2 ** 54 - 1],
    [step = 1]: [float(leaf_max)] is [2 ** 54] and its [log2] is the
    integer 54, so the generator returns [2 ** 53; 2 ** 54], whose last
    count is above [leaf_max]. *)
Theorem generate_leaf_counts_exceeds_leaf_max (math_log2 : Z -> PyFloat.float) :
  PyFloat.is_integer (math_log2 (2 ^ 53)) = true ->
  PyFloat.to_int (math_log2 (2 ^ 53)) = 53 ->
  PyFloat.is_integer (math_log2 (2 ^ 54 - 1)) = true ->
  PyFloat.to_int (math_log2 (2 ^ 54 - 1)) = 54 ->
  generate_leaf_counts math_log2 (2 ^ 53) (2 ^ 54 - 1) 1
    = Some (Ok [2 ^ 53; 2 ^ 54]) /\
  2 ^ 54 - 1 < 2 ^ 54.
Proof.
  intros I1 T1 I2 T2. split; [| lia].
  unfold generate_leaf_counts, generate_leaf_counts_fuel, leaf_counts_bound.
  rewrite I1, I2, T1, T2. vm_compute. reflexivity.
Qed.

Lemma generate_leaf_counts_exceeds_leaf_max_witness :
  generate_leaf_counts log2_through_float (2 ^ 53) (2 ^ 54 - 1) 1
    = Some (Ok [2 ^ 53; 2 ^ 54]).
Proof.
  apply (generate_leaf_counts_exceeds_leaf_max log2_through_float);
    vm_compute; reflexivity.
Defined.

End SweeperClaims.

Section SelectorClaims.
Import Selector.

Lemma main_min_by run_app leaves style fanouts metric layouts :
  collect run_app leaves style fanouts [] = Ok layouts ->
  layouts <> [] ->
  main run_app leaves style fanouts metric
  = min_by (fun lr => metric_value (data lr) metric) layouts.
Proof.
  intros Hc Hne. unfold main. rewrite Hc. cbn [bind].
  destruct layouts; [congruence | reflexivity].
Qed.

Lemma metric_value_present d metric z v :
  get d metric = Some z -> metric_value d metric = Ok v ->
  exists x, v = PyFloat.Finite x.
Proof.
  unfold metric_value. intros ->. unfold bind.
  destruct (PyFloat.of_int z); [| discriminate].
  intros [= <-]. eauto.
Qed.

(** C6: when the candidates that were evaluated are not empty and each
    has a metric value, the selector returns one of them whose value is
    strictly below the value of every earlier candidate and not above the
    value of any later one: the minimum, and the first one on a tie.  For
    one leaf, the aztec style and fanouts 2 and 4 the tree heights are
    equal and the selector returns fanout 2. *)
Theorem main_selects_first_minimum :
  (forall run_app leaves style fanouts metric layouts,
      collect run_app leaves style fanouts [] = Ok layouts ->
      layouts <> [] ->
      (forall lr, In lr layouts ->
         exists v, metric_value (data lr) metric = Ok v) ->
      exists best,
        main run_app leaves style fanouts metric = Ok best /\
        first_minimum (fun lr => metric_value (data lr) metric) layouts best) /\
  (exists d2 d4 best,
      run_app_inprocess 1 "aztec" 2 = Ok d2 /\
      run_app_inprocess 1 "aztec" 4 = Ok d4 /\
      get d2 "treeHeight" = get d4 "treeHeight" /\
      main run_app_inprocess 1 "aztec" [2; 4] "treeHeight" = Ok best /\
      fanout best = 2).
Proof.
  split.
  - intros run_app leaves style fanouts metric layouts Hc Hne Hk.
    rewrite (main_min_by _ _ _ _ _ _ Hc Hne).
    destruct (min_by_defined (fun lr => metric_value (data lr) metric)
                layouts Hne Hk) as [best Hb].
    exists best. split; [exact Hb |]. now apply min_by_first_minimum.
  - do 3 eexists.
    split; [vm_compute; reflexivity |].
    split; [vm_compute; reflexivity |].
    split; [vm_compute; reflexivity |].
    split; [vm_compute; reflexivity | reflexivity].
Qed.

Lemma main_selects_first_minimum_witness :
  exists best,
    main run_app_inprocess 1000 "zama" [2; 4; 8; 16] "totalCommitmentBytes"
    = Ok best /\ fanout best = 8.
Proof.
  assert (C : { l | collect run_app_inprocess 1000 "zama" [2; 4; 8; 16] []
                    = Ok l /\ l <> []
                    /\ forallb (fun lr =>
                         match metric_value (data lr) "totalCommitmentBytes"
                         with Ok _ => true | Raise _ => false end) l = true }).
  { eexists. split; [vm_compute; reflexivity |].
    split; [discriminate | vm_compute; reflexivity]. }
  destruct C as (l & Hc & Hne & Hall).
  destruct (proj1 main_selects_first_minimum run_app_inprocess 1000 "zama"%string
              [2; 4; 8; 16] "totalCommitmentBytes"%string l Hc Hne)
    as (best & Hb & _).
  { intros lr Hin. rewrite forallb_forall in Hall. specialize (Hall lr Hin).
    destruct (metric_value (data lr) "totalCommitmentBytes"); [eauto |].
    discriminate. }
  exists best. split; [exact Hb |].
  assert (E : main run_app_inprocess 1000 "zama" [2; 4; 8; 16]
                   "totalCommitmentBytes"
              = Ok (mkLayoutResult 8
                      (json_of_layout
                         (App.mkLayout "zama" "Zama-style FHE compute stack"
                            "FHE-heavy designs often tolerate slightly larger commitments."
                            1000 8 4 1144 [1000; 125; 16; 2; 1] 48 4 240 1920
                            54912))))
    by (vm_compute; reflexivity).
  rewrite E in Hb. inversion Hb. reflexivity.
Defined.

(** C7: a candidate whose metric is missing from its result, or is null
    there, gets the value +infinity; and whenever some evaluated candidate
    has the metric, the candidate the selector returns has it too. *)
Theorem missing_metric_never_best :
  (forall d metric,
      get d metric = None -> metric_value d metric = Ok PyFloat.Infinity) /\
  (forall run_app leaves style fanouts metric layouts best,
      collect run_app leaves style fanouts [] = Ok layouts ->
      main run_app leaves style fanouts metric = Ok best ->
      (exists lr, In lr layouts /\ get (data lr) metric <> None) ->
      In best layouts /\ get (data best) metric <> None).
Proof.
  split.
  - intros d metric H. unfold metric_value. now rewrite H.
  - intros run_app leaves style fanouts metric layouts best Hc Hm
           (lr & Hin & Hlr).
    assert (Hne : layouts <> []) by (intros ->; destruct Hin).
    rewrite (main_min_by _ _ _ _ _ _ Hc Hne) in Hm.
    apply min_by_first_minimum in Hm.
    destruct Hm as (pre & post & vb & E & Hb & Hpre & Hpost).
    split; [rewrite E; apply in_or_app; right; now left |].
    intros Habs.
    assert (vb = PyFloat.Infinity).
    { unfold metric_value in Hb. rewrite Habs in Hb. congruence. }
    subst vb.
    destruct (get (data lr) metric) as [z |] eqn:Ez; [| congruence].
    rewrite E in Hin. apply in_app_or in Hin.
    destruct Hin as [Hin | [<- | Hin]].
    + destruct (Hpre lr Hin) as (v & _ & Hv). cbn in Hv. discriminate.
    + congruence.
    + destruct (Hpost lr Hin) as (v & Ev & Hv).
      destruct (metric_value_present _ _ _ _ Ez Ev) as [x ->].
      cbn in Hv. discriminate.
Qed.

Lemma missing_metric_never_best_witness :
  metric_value [("totalNodes", Some 7); ("treeHeight", None)]%string
               "treeHeight"
  = Ok PyFloat.Infinity.
Proof.
  apply (proj1 missing_metric_never_best). reflexivity.
Defined.

End SelectorClaims.

Section AppExtras.

Lemma chain_impl (R S : Z -> Z -> Prop) l :
  (forall a b, R a b -> S a b) -> chain R l -> chain S l.
Proof.
  intros HRS. induction l as [| a [| b l] IH]; cbn; auto.
  intros [H C]. split; [now apply HRS | now apply IH].
Qed.

Lemma sum_list_lower l :
  Forall (fun x => 1 <= x) l -> Z.of_nat (List.length l) <= sum_list l.
Proof.
  induction 1 as [| x l Hx _ IH]; cbn [List.length sum_list fold_right];
    [lia |].
  unfold sum_list in IH. lia.
Qed.

Lemma estimate_tree_ok_inv leaves f t :
  estimate_tree leaves f = Some (Ok t) ->
  1 <= leaves /\ allowed_fanout f = true.
Proof.
  unfold estimate_tree, estimate_tree_fuel. intros H.
  destruct (Z.leb_spec leaves 0); [discriminate |].
  destruct (allowed_fanout f); [split; [lia | reflexivity] | discriminate].
Qed.

(** Every tree the estimator returns: the levels start at the leaf count,
    end at the root, shrink strictly and never drop below one node; the
    total is their sum, the height their number minus one, and there are
    more nodes than the height. *)
Theorem estimate_tree_levels leaves fanout t :
  estimate_tree leaves fanout = Some (Ok t) ->
  hd 0 (nodesPerLevel t) = leaves /\
  last (nodesPerLevel t) 0 = 1 /\
  chain (fun a b => 1 <= b < a) (nodesPerLevel t) /\
  totalNodes t = sum_list (nodesPerLevel t) /\
  height t = Z.of_nat (List.length (nodesPerLevel t)) - 1 /\
  height t + 1 <= totalNodes t.
Proof.
  intros H. destruct (estimate_tree_ok_inv _ _ _ H) as [Hl Hf].
  destruct (allowed_fanout_pow2 fanout Hf) as (k & Hk & ->).
  destruct (estimate_tree_shape leaves k t Hk H)
    as (tail & E & C & La & Hh & Ht & Fa).
  rewrite E.
  assert (Hlast : last (leaves :: tail) 0 = 1).
  { rewrite <- La. clear. generalize leaves.
    induction tail as [| b tail IH]; intros a; [reflexivity |].
    cbn [last]. apply IH. }
  repeat split; try assumption; try reflexivity.
  - eapply chain_impl; [| exact C]. cbn.
    intros a b [Ha ->]. apply next_bounds; lia.
  - rewrite Hh. cbn [List.length]. lia.
  - rewrite Hh, Ht.
    assert (Z.of_nat (List.length (leaves :: tail)) <= sum_list (leaves :: tail)).
    { apply sum_list_lower. eapply Forall_impl; [| exact Fa]. cbn; lia. }
    cbn [List.length] in *. lia.
Qed.

Lemma estimate_tree_levels_witness :
  exists t,
    estimate_tree 10 2 = Some (Ok t) /\
    totalNodes t = sum_list (nodesPerLevel t) /\
    height t + 1 <= totalNodes t.
Proof.
  assert (E : { t | estimate_tree 10 2 = Some (Ok t) })
    by (eexists; vm_compute; reflexivity).
  destruct E as [t E]. exists t. split; [exact E |].
  destruct (estimate_tree_levels 10 2 t E) as (_ & _ & _ & H1 & _ & H2).
  split; [exact H1 | exact H2].
Defined.

(** The height of an exact chain down to the root is the least exponent
    of the fanout that covers the leaf count. *)
Lemma chain_height b tail :
  2 <= b ->
  forall n,
    chain (fun x y => 1 < x /\ y = cdiv x b) (n :: tail) ->
    last (n :: tail) 1 = 1 ->
    tail <> [] ->
    b ^ (Z.of_nat (List.length tail) - 1) < n <= b ^ Z.of_nat (List.length tail).
Proof.
  intros Hb. induction tail as [| m tail IH]; intros n C La Hne;
    [congruence |].
  destruct C as [[Hn ->] C].
  pose proof (cdiv_spec n b ltac:(lia)) as Hc.
  destruct tail as [| m' tail].
  - cbn in La. cbn [List.length]. rewrite La in Hc.
    change (Z.of_nat 1 - 1) with 0. change (Z.of_nat 1) with 1.
    rewrite Z.pow_0_r, Z.pow_1_r. lia.
  - specialize (IH (cdiv n b) C La ltac:(discriminate)).
    set (len := Z.of_nat (List.length (m' :: tail))) in *.
    assert (Hlen : 1 <= len) by (unfold len; cbn [List.length]; lia).
    replace (Z.of_nat (List.length (cdiv n b :: m' :: tail))) with (len + 1)
      by (unfold len; cbn [List.length]; lia).
    replace (len + 1 - 1) with ((len - 1) + 1) by lia.
    rewrite !Z.pow_add_r, !Z.pow_1_r by lia.
    assert (0 < b ^ (len - 1)) by (apply Z.pow_pos_nonneg; lia).
    nia.
Qed.

(** Below [2 ** 53] the quotients are exact and the height is the least
    exponent of the fanout covering the leaves. *)
Lemma estimate_tree_height_minimal leaves k t :
  1 <= k <= 3 -> leaves <= 2 ^ 53 ->
  estimate_tree leaves (2 ^ k) = Some (Ok t) ->
  chain (fun a b => b = cdiv a (2 ^ k)) (nodesPerLevel t) /\
  0 <= height t /\
  leaves <= (2 ^ k) ^ height t /\
  (forall h, 0 <= h -> leaves <= (2 ^ k) ^ h -> height t <= h).
Proof.
  intros Hk Hl Ht.
  destruct (estimate_tree_shape leaves k t Hk Ht)
    as (tail & E & C & La & Hh & _ & Fa).
  assert (Hb : 2 <= 2 ^ k).
  { change 2 with (2 ^ 1) at 1. apply Z.pow_le_mono_r; lia. }
  assert (Cx : chain (fun x y => 1 < x /\ y = cdiv x (2 ^ k)) (leaves :: tail)).
  { assert (Fb : Forall (fun x => 1 <= x <= 2 ^ 53) (leaves :: tail)).
    { eapply Forall_impl; [| exact Fa]. cbn. intros; lia. }
    clear - C Fb. revert C Fb. generalize leaves.
    induction tail as [| b tail IH]; intros a C Fb; [exact I |].
    destruct C as [[Ha E] C]. inversion Fb as [| ? ? Hx Fb']; subst.
    rewrite (fl_exact a Hx) in *. split; [split; [lia | reflexivity] |].
    now apply IH. }
  rewrite E, Hh. split; [| split; [lia |]].
  { eapply chain_impl; [| exact Cx]. cbn. intros a b [_ ->]. reflexivity. }
  destruct tail as [| m tail].
  - cbn in La. subst leaves. cbn [List.length]. change (Z.of_nat 0) with 0.
    rewrite Z.pow_0_r. split; [lia | intros; lia].
  - pose proof (chain_height (2 ^ k) (m :: tail) Hb leaves Cx La
                  ltac:(discriminate)) as [Hlo Hhi].
    split; [exact Hhi |].
    intros h Hh0 Hle.
    destruct (Z.le_gt_cases (Z.of_nat (List.length (m :: tail))) h) as [| Hlt];
      [assumption | exfalso].
    assert ((2 ^ k) ^ h <= (2 ^ k) ^ (Z.of_nat (List.length (m :: tail)) - 1))
      by (apply Z.pow_le_mono_r; lia).
    lia.
Qed.

(** Up to [2 ** 53] leaves the estimator returns a tree, each level is
    the exact ceiling quotient of the level below, and the height is the
    least [h] with [fanout ** h >= leaves]. *)
Theorem estimate_tree_exact_height leaves fanout :
  1 <= leaves <= 2 ^ 53 -> fanout = 2 \/ fanout = 4 \/ fanout = 8 ->
  exists t,
    estimate_tree leaves fanout = Some (Ok t) /\
    chain (fun a b => b = cdiv a fanout) (nodesPerLevel t) /\
    0 <= height t /\
    leaves <= fanout ^ height t /\
    (forall h, 0 <= h -> leaves <= fanout ^ h -> height t <= h).
Proof.
  intros Hl Hf. apply allowed_fanout_iff in Hf.
  assert (Hl' : 1 <= leaves <= 2 ^ 1024).
  { split; [lia |]. apply Z.le_trans with (2 ^ 53); [lia |].
    apply Z.pow_le_mono_r; lia. }
  destruct (estimate_tree_ok leaves fanout Hl' Hf) as [t Ht].
  exists t. split; [exact Ht |].
  destruct (allowed_fanout_pow2 fanout Hf) as (k & Hk & ->).
  apply estimate_tree_height_minimal; [exact Hk | lia | exact Ht].
Qed.

Lemma estimate_tree_exact_height_witness :
  exists t,
    estimate_tree 1000000 4 = Some (Ok t) /\
    1000000 <= 4 ^ height t.
Proof.
  destruct (estimate_tree_exact_height 1000000 4) as (t & E & _ & _ & H & _).
  - split; [lia | vm_compute; discriminate].
  - right; now left.
  - exists t. split; [exact E | exact H].
Defined.

End AppExtras.

Section AppMainExtras.

Lemma lookup_styles_key k st : lookup k STYLES = Some st -> key st = k.
Proof.
  unfold STYLES. cbn [lookup].
  destruct (String.eqb_spec k "aztec") as [-> |];
    [intros [= <-]; reflexivity |].
  destruct (String.eqb_spec k "zama") as [-> |];
    [intros [= <-]; reflexivity |].
  destruct (String.eqb_spec k "soundness") as [-> |];
    [intros [= <-]; reflexivity | discriminate].
Qed.

Lemma app_main_accepts leaves style st fanout :
  lookup style STYLES = Some st -> allowed_fanout fanout = true ->
  exists l, app_main leaves style fanout = Some (Ok l).
Proof.
  intros Hst Hf. unfold app_main. rewrite Hst, Hf. cbn [negb].
  destruct (estimate_tree_ok (clamp_int leaves 1 10000000) fanout) as [t Ht];
    [| exact Hf |].
  { unfold clamp_int. split; [lia |]. apply Z.le_trans with (2 ^ 24); [lia |].
    apply Z.pow_le_mono_r; lia. }
  unfold build_layout. rewrite Ht. eauto.
Qed.

(** [main] of app.py on arguments its parser has accepted: for a catalog
    style, a fanout of 2, 4 or 8 and any parsed leaf count, zero and
    negative ones included, the count is clamped into 1..10,000,000 and
    the layout of the clamped count is returned, so that neither the
    estimator's ValueError nor its OverflowError can occur; a count in
    range is kept, a smaller one becomes 1 and a larger one 10,000,000. *)
Theorem app_main_clamps_leaves leaves style st fanout :
  lookup style STYLES = Some st ->
  fanout = 2 \/ fanout = 4 \/ fanout = 8 ->
  exists l,
    app_main leaves style fanout = Some (Ok l) /\
    build_layout st (clamp_int leaves 1 10000000) fanout = Some (Ok l) /\
    1 <= App.leaves l <= 10000000 /\
    (1 <= leaves <= 10000000 -> App.leaves l = leaves) /\
    (leaves < 1 -> App.leaves l = 1) /\
    (10000000 < leaves -> App.leaves l = 10000000) /\
    App.fanout l = fanout /\
    App.style l = style /\
    hashBytes l = hash_bytes st.
Proof.
  intros Hst Hf. apply allowed_fanout_iff in Hf.
  unfold app_main. rewrite Hst, Hf. cbn [negb].
  assert (Hc : 1 <= clamp_int leaves 1 10000000 <= 10000000)
    by (unfold clamp_int; lia).
  destruct (estimate_tree_ok (clamp_int leaves 1 10000000) fanout) as [t Ht];
    [| exact Hf |].
  { split; [lia |]. apply Z.le_trans with (2 ^ 24); [lia |].
    apply Z.pow_le_mono_r; lia. }
  unfold build_layout. rewrite Ht. eexists.
  split; [reflexivity |]. split; [reflexivity |].
  cbn [App.leaves App.fanout App.style hashBytes].
  repeat split; try lia; try (unfold clamp_int; lia).
  now apply lookup_styles_key.
Qed.

Lemma app_main_clamps_leaves_witness :
  exists l, app_main (-5) "zama" 4 = Some (Ok l) /\ App.leaves l = 1.
Proof.
  destruct (app_main_clamps_leaves (-5) "zama"%string zama 4 eq_refl
              (or_intror (or_introl eq_refl)))
    as (l & E & _ & _ & _ & H & _).
  exists l. split; [exact E | apply H; lia].
Defined.

(** A proof never outweighs the commitment: for a style with a
    non-negative hash size every layout has perProofBytes <=
    totalCommitmentBytes, both non-negative, and it repeats the leaves and
    fanout it was asked for. *)
Theorem build_layout_proof_within_commitment st leaves fanout r :
  0 <= hash_bytes st ->
  build_layout st leaves fanout = Some (Ok r) ->
  0 <= perProofBytes r <= totalCommitmentBytes r /\
  treeHeight r + 1 <= ltotalNodes r /\
  ltotalNodes r = sum_list (lnodesPerLevel r) /\
  App.leaves r = leaves /\ App.fanout r = fanout.
Proof.
  intros Hh H. unfold build_layout in H.
  destruct (estimate_tree leaves fanout) as [[t | e] |] eqn:E;
    try discriminate.
  inversion H; subst r; clear H.
  cbn [perProofBytes totalCommitmentBytes treeHeight ltotalNodes
       lnodesPerLevel App.leaves App.fanout].
  destruct (estimate_tree_ok_inv _ _ _ E) as [Hl Hf].
  destruct (allowed_fanout_pow2 fanout Hf) as (k & Hk & Ek).
  rewrite Ek in E.
  destruct (estimate_tree_shape leaves k t Hk E)
    as (tail & E1 & _ & _ & Hlen & Hs & Fa).
  assert (Lw : Z.of_nat (List.length (leaves :: tail))
               <= sum_list (leaves :: tail)).
  { apply sum_list_lower. eapply Forall_impl; [| exact Fa]. cbn; lia. }
  cbn [List.length] in Lw. rewrite E1.
  repeat split; try assumption; try reflexivity; nia.
Qed.

Lemma build_layout_proof_within_commitment_witness :
  exists r,
    build_layout soundness 77 8 = Some (Ok r) /\
    0 <= perProofBytes r <= totalCommitmentBytes r.
Proof.
  assert (E : { r | build_layout soundness 77 8 = Some (Ok r) })
    by (eexists; vm_compute; reflexivity).
  destruct E as [r E]. exists r. split; [exact E |].
  apply (build_layout_proof_within_commitment soundness 77 8 r);
    [cbn; lia | exact E].
Defined.

End AppMainExtras.

Section SizerExtras.
Import Sizer.

Lemma sum_list_app l1 l2 : sum_list (l1 ++ l2) = sum_list l1 + sum_list l2.
Proof.
  unfold sum_list. induction l1 as [| x l1 IH]; cbn [app fold_right]; lia.
Qed.

Lemma level_sum_succ a h :
  level_sum a (S h) = level_sum a h + a ^ Z.of_nat (S h).
Proof.
  unfold level_sum. rewrite (seq_S (S h)), map_app, sum_list_app.
  cbn [map sum_list fold_right Nat.add]. lia.
Qed.

Lemma level_sum_closed a h :
  level_sum a h * (a - 1) = a ^ (Z.of_nat h + 1) - 1.
Proof.
  induction h as [| h IH].
  - unfold level_sum. cbn [seq map sum_list fold_right].
    change (Z.of_nat 0) with 0. rewrite Z.pow_0_r.
    change (0 + 1) with 1. rewrite Z.pow_1_r. lia.
  - rewrite level_sum_succ, Z.mul_add_distr_r, IH.
    rewrite (Z.pow_add_r a (Z.of_nat (S h)) 1) by lia.
    replace (Z.of_nat h + 1) with (Z.of_nat (S h)) by lia.
    rewrite Z.pow_1_r. lia.
Qed.

Lemma fdiv_raises x y e :
  PyFloat.fdiv x y = Raise e -> e = ZeroDivisionError \/ e = OverflowError.
Proof.
  unfold PyFloat.fdiv.
  destruct (PyFloat.mant y =? 0); [intros [= <-]; now left |].
  destruct (PyFloat.nearest_signed _ _); [discriminate |].
  intros [= <-]. now right.
Qed.

(** The sizer's output, whatever the logarithm returns: the echoed
    inputs, fullLeaves = arity ** height = leafNodes, paddingLeaves =
    fullLeaves - leaves, totalNodes = internalNodes + leafNodes, and for a
    non-negative height the floor division of the closed form is exact:
    totalNodes is the sum of [arity ** i] over the levels [0..height]. *)
Theorem compute_layout_identities (math_log : Z -> PyFloat.float)
    leaves arity p :
  compute_layout math_log leaves arity = Ok p ->
  0 < leaves /\ 1 < arity /\
  Sizer.leaves p = leaves /\ Sizer.arity p = arity /\
  fullLeaves p = arity ^ height p /\
  leafNodes p = fullLeaves p /\
  paddingLeaves p = fullLeaves p - leaves /\
  totalNodes p = internalNodes p + leafNodes p /\
  (0 <= height p -> totalNodes p = level_sum arity (Z.to_nat (height p))).
Proof.
  unfold compute_layout. intros H.
  destruct (Z.leb_spec leaves 0); [discriminate |].
  destruct (Z.leb_spec arity 1); [discriminate |].
  unfold bind in H.
  destruct (math_log_base math_log leaves arity) as [q | e]; [| discriminate].
  inversion H; subst p; clear H.
  cbn [Sizer.leaves Sizer.arity fullLeaves leafNodes paddingLeaves totalNodes
       internalNodes height].
  repeat split; try lia.
  intros Hh. set (h := PyFloat.ceil q) in *.
  pose proof (level_sum_closed arity (Z.to_nat h)) as E.
  rewrite Z2Nat.id in E by exact Hh.
  rewrite <- E. rewrite Z.div_mul by lia. reflexivity.
Qed.

Lemma compute_layout_identities_witness :
  exists p,
    compute_layout log_table 125 5 = Ok p /\
    totalNodes p = internalNodes p + leafNodes p /\
    totalNodes p = level_sum 5 4.
Proof.
  assert (E : { p | compute_layout log_table 125 5 = Ok p /\ height p = 4 }).
  { eexists. split; vm_compute; reflexivity. }
  destruct E as (p & E & Hh). exists p. split; [exact E |].
  destruct (compute_layout_identities log_table 125 5 p E)
    as (_ & _ & _ & _ & _ & _ & _ & H1 & H2).
  split; [exact H1 |]. rewrite Hh in H2. apply H2. lia.
Defined.

(** The sizer leaves with exit status 2 exactly when leaves <= 0 or
    arity <= 1, whatever the logarithm returns; any other failure comes
    from the float quotient of the two logarithms. *)
Theorem compute_layout_exit (math_log : Z -> PyFloat.float) leaves arity :
  (leaves <= 0 \/ arity <= 1 <->
   compute_layout math_log leaves arity = Raise (SystemExit 2)) /\
  (forall e, compute_layout math_log leaves arity = Raise e ->
     e = SystemExit 2 \/ e = ZeroDivisionError \/ e = OverflowError).
Proof.
  unfold compute_layout.
  destruct (Z.leb_spec leaves 0); [split; [split; auto | intros e [= <-]; auto] |].
  destruct (Z.leb_spec arity 1); [split; [split; auto | intros e [= <-]; auto] |].
  unfold math_log_base, bind.
  destruct (PyFloat.fdiv (math_log leaves) (math_log arity)) as [q | e0] eqn:E.
  - split; [split; [lia | discriminate] | discriminate].
  - apply fdiv_raises in E. split.
    + split; [lia |]. intros [= ->]. destruct E; discriminate.
    + intros e [= <-]. now right.
Qed.

Lemma compute_layout_exit_witness :
  compute_layout log_table 0 5 = Raise (SystemExit 2) /\
  compute_layout log_table 9 1 = Raise (SystemExit 2).
Proof.
  split.
  - apply (proj1 (compute_layout_exit log_table 0 5)). left. lia.
  - apply (proj1 (compute_layout_exit log_table 9 1)). right. lia.
Defined.

End SizerExtras.

Section SelectorExtras.
Import Selector.

Variable run_app : Z -> string -> Z -> result json_object.

Lemma collect_acc leaves style fanouts :
  no_exit run_app leaves style fanouts ->
  forall acc,
    collect run_app leaves style fanouts acc
    = Ok (acc ++ successes run_app leaves style fanouts).
Proof.
  unfold no_exit, successes.
  induction fanouts as [| f rest IH]; intros Hne acc; cbn [collect flat_map].
  - now rewrite app_nil_r.
  - assert (Hrest : forall f' c, In f' rest ->
                      run_app leaves style f' <> Raise (SystemExit c)).
    { intros f' c Hin. apply Hne. now right. }
    pose proof (Hne f) as Hf.
    destruct (run_app leaves style f) as [d | e].
    + rewrite IH by exact Hrest. now rewrite <- app_assoc.
    + destruct e; try (rewrite IH by exact Hrest; reflexivity).
      exfalso. eapply Hf; [now left | reflexivity].
Qed.

Lemma successes_in leaves style fanouts lr :
  In lr (successes run_app leaves style fanouts) <->
  In (fanout lr) fanouts /\ run_app leaves style (fanout lr) = Ok (data lr).
Proof.
  unfold successes. rewrite in_flat_map. split.
  - intros (f & Hin & H).
    destruct (run_app leaves style f) as [d | e] eqn:E; [| destruct H].
    destruct H as [<- | []]. cbn. auto.
  - intros [Hin E]. exists (fanout lr). split; [exact Hin |].
    rewrite E. left. now destruct lr.
Qed.

(** The candidate loop: when no run ends the process, the candidates
    kept are exactly the fanouts whose run succeeded, each with its own
    result, in the order of the fanout list; failed runs are skipped. *)
Theorem collect_keeps_successes leaves style fanouts :
  no_exit run_app leaves style fanouts ->
  collect run_app leaves style fanouts []
    = Ok (successes run_app leaves style fanouts) /\
  map fanout (successes run_app leaves style fanouts)
    = filter (fun f => match run_app leaves style f with
                       | Ok _ => true
                       | Raise _ => false
                       end) fanouts /\
  (forall lr, In lr (successes run_app leaves style fanouts) <->
     In (fanout lr) fanouts /\
     run_app leaves style (fanout lr) = Ok (data lr)).
Proof.
  intros Hne. split; [| split].
  - now rewrite collect_acc.
  - unfold successes. clear Hne.
    induction fanouts as [| f rest IH]; [reflexivity |].
    cbn [flat_map filter].
    destruct (run_app leaves style f); cbn [app map fanout];
      now rewrite IH.
  - apply successes_in.
Qed.

Lemma metric_value_raises d metric e :
  metric_value d metric = Raise e -> e = OverflowError.
Proof.
  unfold metric_value.
  destruct (get d metric) as [z |]; [| discriminate].
  unfold bind, PyFloat.of_int.
  destruct (PyFloat.nearest_signed z 1); [discriminate |].
  now intros [= <-].
Qed.

Lemma min_loop_raises {A : Type} (key : A -> result PyFloat.xfloat) rest :
  forall best vb e,
    (forall x e', key x = Raise e' -> e' = OverflowError) ->
    min_loop key rest best vb = Raise e -> e = OverflowError.
Proof.
  induction rest as [| item rest IH]; intros best vb e Hk; cbn [min_loop];
    [discriminate |].
  unfold bind. destruct (key item) as [k | e'] eqn:Ek.
  - destruct (PyFloat.xltb k vb); now apply IH.
  - intros [= <-]. eapply Hk, Ek.
Qed.

Lemma main_body_outcomes leaves style fanouts metric :
  no_exit run_app leaves style fanouts ->
  (main run_app leaves style fanouts metric = Raise (SystemExit 1) <->
   forall f, In f fanouts -> exists e, run_app leaves style f = Raise e) /\
  (forall best,
      main run_app leaves style fanouts metric = Ok best ->
      In (fanout best) fanouts /\
      run_app leaves style (fanout best) = Ok (data best)) /\
  (forall e,
      main run_app leaves style fanouts metric = Raise e ->
      e = SystemExit 1 \/ e = OverflowError).
Proof.
  intros Hne.
  pose proof (collect_acc leaves style fanouts Hne []) as Hc.
  cbn [app] in Hc.
  pose proof (successes_in leaves style fanouts) as Hin.
  set (S := successes run_app leaves style fanouts) in *.
  assert (Hempty : S = [] <->
            forall f, In f fanouts -> exists e, run_app leaves style f = Raise e).
  { split.
    - intros HS f Hf.
      destruct (run_app leaves style f) as [d | e] eqn:E; [| eauto].
      assert (In (mkLayoutResult f d) S) by (apply Hin; cbn; auto).
      rewrite HS in H. destruct H.
    - intros Hall. destruct S as [| lr S']; [reflexivity |].
      assert (Hlr : In lr (lr :: S')) by now left.
      apply Hin in Hlr. destruct Hlr as [Hf E].
      destruct (Hall _ Hf) as [e He]. congruence. }
  assert (Hmain : S <> [] ->
            main run_app leaves style fanouts metric
            = min_by (fun lr => metric_value (data lr) metric) S)
    by (apply main_min_by; exact Hc).
  assert (Hraise : forall e, S <> [] ->
            min_by (fun lr => metric_value (data lr) metric) S = Raise e ->
            e = OverflowError).
  { intros e HS. destruct S as [| item rest]; [congruence |].
    cbn [min_by]. unfold bind.
    destruct (metric_value (data item) metric) as [k | e'] eqn:Ek.
    - apply min_loop_raises. intros x e''. apply metric_value_raises.
    - intros [= <-]. eapply metric_value_raises, Ek. }
  split; [| split].
  - rewrite <- Hempty. split.
    + intros H. destruct S as [| lr S']; [reflexivity | exfalso].
      rewrite Hmain in H by discriminate.
      apply Hraise in H; [discriminate | discriminate].
    + intros HS. unfold main. rewrite Hc, HS. reflexivity.
  - intros best H.
    destruct S as [| lr S'].
    + unfold main in H. rewrite Hc in H. discriminate.
    + rewrite Hmain in H by discriminate.
      apply min_by_first_minimum in H.
      destruct H as (pre & post & vb & E & _).
      apply Hin. rewrite E. apply in_or_app. right. now left.
  - intros e H. destruct S as [| lr S'].
    + unfold main in H. rewrite Hc in H. cbn in H. left. congruence.
    + rewrite Hmain in H by discriminate. right.
      apply (Hraise e); [discriminate | exact H].
Qed.

Lemma main_with_parser_accepted is_file leaves style fanouts metric :
  In style STYLE_CHOICES -> In metric METRICS -> fanouts <> [] ->
  main_with_parser run_app is_file leaves style fanouts metric
  = if is_file then main run_app leaves style fanouts metric
    else Raise (SystemExit 1).
Proof.
  intros Hs Hm Hf. unfold main_with_parser.
  assert (Es : existsb (String.eqb style) STYLE_CHOICES = true).
  { apply existsb_exists. exists style. split; [exact Hs |].
    apply String.eqb_refl. }
  assert (Em : existsb (String.eqb metric) METRICS = true).
  { apply existsb_exists. exists metric. split; [exact Hm |].
    apply String.eqb_refl. }
  rewrite Es, Em. cbn [negb].
  destruct fanouts as [| f rest]; [congruence |].
  now destruct is_file.
Qed.

(** The selector's [main], for arguments its parser accepts (a style of
    the choices, a metric of METRICS, at least one fanout) and when no
    run ends the process: with app.py in place it leaves with exit status
    1 exactly when every candidate failed; a candidate it returns is one
    of the fanouts asked for, with the result of its own run; the only
    other failure is a metric too large for a float; and without app.py
    it leaves with exit status 1. *)
Theorem main_outcomes leaves style fanouts metric :
  In style STYLE_CHOICES -> In metric METRICS -> fanouts <> [] ->
  no_exit run_app leaves style fanouts ->
  (main_with_parser run_app true leaves style fanouts metric
   = Raise (SystemExit 1) <->
   forall f, In f fanouts -> exists e, run_app leaves style f = Raise e) /\
  (forall best,
      main_with_parser run_app true leaves style fanouts metric = Ok best ->
      In (fanout best) fanouts /\
      run_app leaves style (fanout best) = Ok (data best)) /\
  (forall e,
      main_with_parser run_app true leaves style fanouts metric = Raise e ->
      e = SystemExit 1 \/ e = OverflowError) /\
  main_with_parser run_app false leaves style fanouts metric
  = Raise (SystemExit 1).
Proof.
  intros Hs Hm Hf Hne.
  rewrite !main_with_parser_accepted by assumption.
  destruct (main_body_outcomes leaves style fanouts metric Hne)
    as (H1 & H2 & H3).
  split; [exact H1 |]. split; [exact H2 |]. split; [exact H3 | reflexivity].
Qed.

End SelectorExtras.

Section SelectorIntegers.
Import Selector.

Lemma run_app_inprocess_no_exit leaves style fanouts :
  no_exit run_app_inprocess leaves style fanouts.
Proof.
  intros f c _. unfold run_app_inprocess.
  destruct (App.app_main leaves style f) as [[l | e] |]; discriminate.
Qed.

Lemma collect_keeps_successes_witness :
  map fanout (successes run_app_inprocess 50 "aztec" [16; 8; 3; 2])
  = [8; 2].
Proof.
  destruct (collect_keeps_successes run_app_inprocess 50 "aztec"%string
              [16; 8; 3; 2] (run_app_inprocess_no_exit _ _ _))
    as (_ & H & _).
  rewrite H. vm_compute. reflexivity.
Defined.

Lemma main_outcomes_witness :
  main_with_parser run_app_inprocess true 50 "aztec" [16; 3] "treeHeight"
  = Raise (SystemExit 1).
Proof.
  apply (proj1 (main_outcomes run_app_inprocess 50 "aztec"%string [16; 3]
                  "treeHeight"%string
                  (or_introl eq_refl) (or_introl eq_refl)
                  ltac:(discriminate)
                  (run_app_inprocess_no_exit _ _ _))).
  intros f [<- | [<- | []]]; eexists; vm_compute; reflexivity.
Defined.

(** [float(z)] is exact for [0 <= z < 2 ** 53]. *)
Lemma of_int_exact z :
  0 <= z < 2 ^ 53 ->
  exists x,
    PyFloat.of_int z = Ok x /\ -52 <= PyFloat.expo x /\
    PyFloat.mant x * 2 ^ (PyFloat.expo x + 52) = z * 2 ^ 52.
Proof.
  intros [Hz Hhi]. unfold PyFloat.of_int, PyFloat.nearest_signed.
  destruct (Z.eqb_spec z 0) as [-> | Hne].
  - eexists. split; [reflexivity |]. cbn. lia.
  - rewrite (Z.abs_eq z) by lia. change (Z.abs 1) with (2 ^ 0).
    rewrite nearest_pow2 by lia. cbv zeta.
    rewrite overflow_mant53 by lia.
    assert (HL : Z.log2 z < 53) by (apply Z.log2_lt_pow2; lia).
    pose proof (Z.log2_nonneg z) as HL0.
    assert (Hfl : fl z = z) by (apply fl_exact; lia).
    assert (P : 2 ^ 53 < 2 ^ (1024 + 0)) by (apply Z.pow_lt_mono_r; lia).
    destruct (Z.leb_spec (2 ^ (1024 + 0)) (fl z)); [lia |].
    rewrite Z.sgn_pos by lia. change (Z.sgn 1) with 1.
    destruct (Z.ltb_spec (1 * 1) 0); [lia |].
    eexists. split; [reflexivity |]. cbn [PyFloat.expo PyFloat.mant].
    split; [lia |].
    unfold mant53. destruct (Z.leb_spec (Z.log2 z - 52) 0); [| lia].
    rewrite <- Z.mul_assoc, <- pow2_split by lia. do 2 f_equal. lia.
Qed.

Lemma xltb_of_int a b x y :
  0 <= a < 2 ^ 53 -> 0 <= b < 2 ^ 53 ->
  PyFloat.of_int a = Ok x -> PyFloat.of_int b = Ok y ->
  PyFloat.xltb (PyFloat.Finite x) (PyFloat.Finite y) = (a <? b).
Proof.
  intros Ha Hb Ex Ey.
  destruct (of_int_exact a Ha) as (x' & Ex' & Hx1 & Hx2).
  destruct (of_int_exact b Hb) as (y' & Ey' & Hy1 & Hy2).
  assert (x' = x) by congruence. assert (y' = y) by congruence. subst.
  cbn [PyFloat.xltb]. rewrite (fltb_scaled x y (-52)) by lia.
  replace (PyFloat.expo x - -52) with (PyFloat.expo x + 52) by lia.
  replace (PyFloat.expo y - -52) with (PyFloat.expo y + 52) by lia.
  rewrite Hx2, Hy2.
  assert (0 < 2 ^ 52) by (apply Z.pow_pos_nonneg; lia).
  destruct (Z.ltb_spec (a * 2 ^ 52) (b * 2 ^ 52)), (Z.ltb_spec a b);
    try reflexivity; nia.
Qed.

Lemma metric_value_int d metric z :
  get d metric = Some z -> 0 <= z < 2 ^ 53 ->
  exists x, PyFloat.of_int z = Ok x /\
            metric_value d metric = Ok (PyFloat.Finite x).
Proof.
  intros Hg Hz. destruct (of_int_exact z Hz) as (x & Ex & _).
  exists x. split; [exact Ex |].
  unfold metric_value. rewrite Hg, Ex. reflexivity.
Qed.

Lemma min_by_integer_metric metric (layouts : list LayoutResult) :
  layouts <> [] ->
  (forall lr, In lr layouts ->
     exists z, get (data lr) metric = Some z /\ 0 <= z < 2 ^ 53) ->
  exists best pre post zb,
    min_by (fun lr => metric_value (data lr) metric) layouts = Ok best /\
    layouts = pre ++ best :: post /\
    get (data best) metric = Some zb /\
    (forall lr, In lr pre ->
       exists z, get (data lr) metric = Some z /\ zb < z) /\
    (forall lr, In lr post ->
       exists z, get (data lr) metric = Some z /\ zb <= z).
Proof.
  intros Hne Hint.
  destruct (min_by_defined (fun lr => metric_value (data lr) metric) layouts Hne)
    as [best Hb].
  { intros lr Hin. destruct (Hint lr Hin) as (z & Hg & Hz).
    destruct (metric_value_int _ _ _ Hg Hz) as (x & _ & E). eauto. }
  destruct (min_by_first_minimum _ _ _ Hb)
    as (pre & post & vb & E & Hvb & Hpre & Hpost).
  assert (Hin_best : In best layouts)
    by (rewrite E; apply in_or_app; right; now left).
  destruct (Hint best Hin_best) as (zb & Hgb & Hzb).
  destruct (metric_value_int _ _ _ Hgb Hzb) as (xb & Exb & Eb).
  assert (vb = PyFloat.Finite xb) by congruence. subst vb.
  exists best, pre, post, zb.
  repeat split; try assumption.
  - intros lr Hin.
    assert (Hl : In lr layouts) by (rewrite E; apply in_or_app; now left).
    destruct (Hint lr Hl) as (z & Hg & Hz).
    destruct (metric_value_int _ _ _ Hg Hz) as (x & Ex & Ek).
    destruct (Hpre lr Hin) as (v & Ev & Hv).
    assert (v = PyFloat.Finite x) by congruence. subst v.
    rewrite (xltb_of_int zb z xb x Hzb Hz Exb Ex) in Hv.
    apply Z.ltb_lt in Hv. eauto.
  - intros lr Hin.
    assert (Hl : In lr layouts)
      by (rewrite E; apply in_or_app; right; now right).
    destruct (Hint lr Hl) as (z & Hg & Hz).
    destruct (metric_value_int _ _ _ Hg Hz) as (x & Ex & Ek).
    destruct (Hpost lr Hin) as (v & Ev & Hv).
    assert (v = PyFloat.Finite x) by congruence. subst v.
    rewrite (xltb_of_int z zb x xb Hz Hzb Ex Exb) in Hv.
    apply Z.ltb_ge in Hv. eauto.
Qed.

(** When every candidate's metric is an integer in [0, 2 ** 53), the
    float keys order the candidates as the integers do: the selector
    returns a candidate whose integer metric is strictly below that of
    every earlier candidate and at most that of every later one. *)
Theorem main_minimises_integer_metric
    (run_app : Z -> string -> Z -> result json_object)
    leaves style fanouts metric layouts :
  collect run_app leaves style fanouts [] = Ok layouts ->
  layouts <> [] ->
  (forall lr, In lr layouts ->
     exists z, get (data lr) metric = Some z /\ 0 <= z < 2 ^ 53) ->
  exists best pre post zb,
    main run_app leaves style fanouts metric = Ok best /\
    layouts = pre ++ best :: post /\
    get (data best) metric = Some zb /\
    (forall lr, In lr pre ->
       exists z, get (data lr) metric = Some z /\ zb < z) /\
    (forall lr, In lr post ->
       exists z, get (data lr) metric = Some z /\ zb <= z).
Proof.
  intros Hc Hne Hint.
  rewrite (main_min_by _ _ _ _ _ _ Hc Hne).
  now apply min_by_integer_metric.
Qed.

Lemma main_minimises_integer_metric_witness :
  exists best zb,
    main run_app_inprocess 300 "soundness" [8; 2; 5; 4] "totalNodes" = Ok best /\
    get (data best) "totalNodes" = Some zb.
Proof.
  assert (C : { l | collect run_app_inprocess 300 "soundness" [8; 2; 5; 4] []
                    = Ok l /\ l <> [] /\
                    forallb (fun lr =>
                      match get (data lr) "totalNodes" with
                      | Some z => (0 <=? z) && (z <? 2 ^ 53)
                      | None => false
                      end) l = true }).
  { eexists. split; [vm_compute; reflexivity |].
    split; [discriminate | vm_compute; reflexivity]. }
  destruct C as (l & Hc & Hne & Hall).
  destruct (main_minimises_integer_metric run_app_inprocess 300
              "soundness"%string [8; 2; 5; 4] "totalNodes"%string l Hc Hne)
    as (best & _ & _ & zb & Hm & _ & Hz & _).
  { intros lr Hin. rewrite forallb_forall in Hall. specialize (Hall lr Hin).
    destruct (get (data lr) "totalNodes") as [z |]; [| discriminate].
    apply andb_true_iff in Hall. destruct Hall as [H1 H2].
    apply Z.leb_le in H1. apply Z.ltb_lt in H2. eauto. }
  exists best, zb. split; [exact Hm | exact Hz].
Defined.

End SelectorIntegers.

Section SelectorWithApp.
Import Selector.

Lemma styles_hash_bytes_bound k st :
  App.lookup k App.STYLES = Some st -> 0 < App.hash_bytes st <= 48.
Proof.
  unfold App.STYLES. cbn [App.lookup].
  destruct (String.eqb k "aztec"); [intros [= <-]; cbn; lia |].
  destruct (String.eqb k "zama"); [intros [= <-]; cbn; lia |].
  destruct (String.eqb k "soundness"); [intros [= <-]; cbn; lia |].
  discriminate.
Qed.

Lemma sum_list_upper M l :
  Forall (fun x => x <= M) l -> sum_list l <= Z.of_nat (List.length l) * M.
Proof.
  induction 1 as [| x l Hx _ IH]; cbn [List.length sum_list fold_right];
    [lia |].
  unfold sum_list in IH. lia.
Qed.

(** Sizes of a tree for at most ten million leaves. *)
Lemma estimate_tree_small leaves f t :
  leaves <= 10000000 ->
  App.estimate_tree leaves f = Some (Ok t) ->
  0 <= App.height t <= 24 /\ 1 <= App.totalNodes t <= 250000000.
Proof.
  intros Hhi Ht.
  destruct (estimate_tree_ok_inv _ _ _ Ht) as [Hlo Hf].
  assert (Hf' := Hf). apply allowed_fanout_iff in Hf'.
  assert (B53 : 1 <= leaves <= 2 ^ 53).
  { split; [lia |]. apply Z.le_trans with (2 ^ 24); [lia |].
    apply Z.pow_le_mono_r; lia. }
  destruct (allowed_fanout_pow2 f Hf) as (k & Hk & ->).
  destruct (estimate_tree_height_minimal leaves k t Hk ltac:(lia) Ht)
    as (_ & H0 & _ & Hmin).
  assert (Hh : App.height t <= 24).
  { apply Hmin; [lia |].
    apply Z.le_trans with (2 ^ 24); [change (2 ^ 24) with 16777216; lia |].
    apply Z.pow_le_mono_l. split; [lia |].
    change 2 with (2 ^ 1) at 1. apply Z.pow_le_mono_r; lia. }
  split; [lia |].
  destruct (estimate_tree_shape leaves k t Hk Ht)
    as (tail & _ & _ & _ & Hlen & Hs & Fa).
  assert (U : sum_list (leaves :: tail)
              <= Z.of_nat (List.length (leaves :: tail)) * leaves).
  { apply sum_list_upper. eapply Forall_impl; [| exact Fa]. cbn; lia. }
  assert (Lw : Z.of_nat (List.length (leaves :: tail)) <= sum_list (leaves :: tail)).
  { apply sum_list_lower. eapply Forall_impl; [| exact Fa]. cbn; lia. }
  cbn [List.length] in U, Lw. rewrite Hs.
  assert (Z.of_nat (S (List.length tail)) * leaves <= 25 * 10000000).
  { apply Z.mul_le_mono_nonneg; lia. }
  lia.
Qed.

(** Every metric of a layout printed by app.py is an integer below
    [2 ** 53]. *)
Lemma app_metrics_small leaves style f l metric :
  App.app_main leaves style f = Some (Ok l) ->
  In metric METRICS ->
  exists z, get (json_of_layout l) metric = Some z /\ 0 <= z < 2 ^ 53.
Proof.
  intros Hm Hmetric. unfold App.app_main in Hm.
  destruct (App.lookup style App.STYLES) as [st |] eqn:Hst; [| discriminate].
  destruct (negb (App.allowed_fanout f)); [discriminate |].
  pose proof (styles_hash_bytes_bound _ _ Hst) as Hhb.
  unfold App.build_layout in Hm.
  destruct (App.estimate_tree (App.clamp_int leaves 1 10000000) f)
    as [[t | e] |] eqn:Et; try discriminate.
  inversion Hm; subst l; clear Hm.
  assert (Hcl : App.clamp_int leaves 1 10000000 <= 10000000)
    by (unfold App.clamp_int; lia).
  destruct (estimate_tree_small _ _ _ Hcl Et) as [Hh Hn].
  set (h := App.height t) in *. set (n := App.totalNodes t) in *.
  set (hb := App.hash_bytes st) in *.
  assert (B1 : 0 <= (h + 1) * hb <= 25 * 48).
  { split; [apply Z.mul_nonneg_nonneg; lia |].
    apply Z.mul_le_mono_nonneg; lia. }
  assert (B2 : 0 <= n * hb <= 250000000 * 48).
  { split; [apply Z.mul_nonneg_nonneg; lia |].
    apply Z.mul_le_mono_nonneg; lia. }
  change (2 ^ 53) with 9007199254740992.
  unfold METRICS in Hmetric. cbn [In] in Hmetric.
  destruct Hmetric as [<- | [<- | [<- | [<- | [<- | []]]]]];
    (eexists; split; [reflexivity |]);
    cbn [App.treeHeight App.ltotalNodes App.proofBranchLength
         App.perProofBytes App.totalCommitmentBytes];
    fold h; fold n; fold hb; lia.
Qed.

Lemma successes_inprocess_layout leaves style fanouts lr :
  In lr (successes run_app_inprocess leaves style fanouts) ->
  exists l, App.app_main leaves style (fanout lr) = Some (Ok l) /\
            data lr = json_of_layout l.
Proof.
  intros H. apply successes_in in H. destruct H as [_ H].
  unfold run_app_inprocess in H.
  destruct (App.app_main leaves style (fanout lr)) as [[l | e] |];
    try discriminate.
  inversion H. eauto.
Qed.

(** The selector over app.py: for a catalog style, a metric of METRICS
    and a fanout list holding at least one of 2, 4, 8, the selector
    returns a candidate with an accepted fanout from the list whose
    integer metric is at most that of every fanout app.py accepts. *)
Theorem main_with_app_minimises leaves style st fanouts metric :
  App.lookup style App.STYLES = Some st ->
  In metric METRICS ->
  (exists f, In f fanouts /\ (f = 2 \/ f = 4 \/ f = 8)) ->
  exists best zb,
    main run_app_inprocess leaves style fanouts metric = Ok best /\
    In (fanout best) fanouts /\
    (fanout best = 2 \/ fanout best = 4 \/ fanout best = 8) /\
    get (data best) metric = Some zb /\
    (forall f l,
        In f fanouts -> App.app_main leaves style f = Some (Ok l) ->
        exists z, get (json_of_layout l) metric = Some z /\ zb <= z).
Proof.
  intros Hst Hmetric (f0 & Hf0 & Hf0').
  pose proof (run_app_inprocess_no_exit leaves style fanouts) as Hne.
  pose proof (collect_acc run_app_inprocess leaves style fanouts Hne []) as Hc.
  cbn [app] in Hc.
  pose proof (successes_in run_app_inprocess leaves style fanouts) as Hin.
  set (S := successes run_app_inprocess leaves style fanouts) in *.
  assert (HS : S <> []).
  { destruct (app_main_accepts leaves style st f0 Hst
                (proj2 (allowed_fanout_iff f0) Hf0')) as [l El].
    assert (In (mkLayoutResult f0 (json_of_layout l)) S).
    { apply Hin. cbn. split; [exact Hf0 |].
      unfold run_app_inprocess. now rewrite El. }
    intros E. rewrite E in H. destruct H. }
  rewrite (main_min_by _ _ _ _ metric _ Hc HS).
  destruct (min_by_integer_metric metric S HS)
    as (best & pre & post & zb & Hmain & E & Hzb & Hpre & Hpost).
  { intros lr Hlr.
    destruct (successes_inprocess_layout _ _ _ _ Hlr) as (l & El & ->).
    eapply app_metrics_small; eassumption. }
  assert (Hbest : In best S)
    by (rewrite E; apply in_or_app; right; now left).
  exists best, zb. split; [exact Hmain |].
  split; [now apply Hin |].
  split.
  { destruct (successes_inprocess_layout _ _ _ _ Hbest) as (l & El & _).
    unfold App.app_main in El. rewrite Hst in El.
    destruct (App.allowed_fanout (fanout best)) eqn:Ea; [| discriminate].
    now apply allowed_fanout_iff. }
  split; [exact Hzb |].
  intros f l Hf El.
  assert (Hlr : In (mkLayoutResult f (json_of_layout l)) S).
  { apply Hin. cbn. split; [exact Hf |].
    unfold run_app_inprocess. now rewrite El. }
  rewrite E in Hlr. apply in_app_or in Hlr.
  destruct Hlr as [H | [H | H]].
  - destruct (Hpre _ H) as (z & Hz & Hlt). exists z. split; [exact Hz | lia].
  - subst best. exists zb. split; [exact Hzb | lia].
  - destruct (Hpost _ H) as (z & Hz & Hle). exists z. split; [exact Hz | lia].
Qed.

Lemma main_with_app_minimises_witness :
  exists best zb,
    main run_app_inprocess 1000 "aztec" [16; 4; 2] "perProofBytes" = Ok best /\
    In (fanout best) [16; 4; 2] /\
    get (data best) "perProofBytes" = Some zb.
Proof.
  destruct (main_with_app_minimises 1000 "aztec"%string App.aztec [16; 4; 2]
              "perProofBytes"%string eq_refl)
    as (best & zb & H1 & H2 & _ & H3 & _).
  - unfold METRICS. cbn [In]. do 3 right. now left.
  - exists 4. split; [cbn [In]; right; now left | right; now left].
  - exists best, zb. split; [exact H1 |]. split; [exact H2 | exact H3].
Defined.

End SelectorWithApp.

Section SweeperExtras.
Import Sweeper.

Variable math_log2 : Z -> PyFloat.float.

(** The range check of the generator: ValueError exactly for
    leaf_min <= 0 or leaf_max < leaf_min, whatever the logarithm returns
    and however many iterations are allowed; nothing else is raised. *)
Theorem generate_leaf_counts_value_error fuel leaf_min leaf_max step :
  (leaf_min <= 0 \/ leaf_max < leaf_min <->
   generate_leaf_counts_fuel math_log2 fuel leaf_min leaf_max step
   = Some (Raise (ValueError "leaf-min must be > 0 and <= leaf-max"))) /\
  (forall e,
      generate_leaf_counts_fuel math_log2 fuel leaf_min leaf_max step
      = Some (Raise e) ->
      leaf_min <= 0 \/ leaf_max < leaf_min).
Proof.
  unfold generate_leaf_counts_fuel.
  destruct (Z.leb_spec leaf_min 0); cbn [orb]; [split; [split |]; auto |].
  destruct (Z.ltb_spec leaf_max leaf_min); [split; [split |]; auto |].
  assert (N : forall (o : option (list Z)) e,
             option_map Ok o <> Some (@Raise (list Z) e))
    by (intros [l |] e; discriminate).
  destruct (negb _ || negb _).
  - split; [split; [lia |] |]; intros; exfalso; eapply N; eassumption.
  - split; [split; [lia |] |]; intros; exfalso; eapply N; eassumption.
Qed.

Lemma doubling_loop_spec leaf_max fuel :
  forall n counts,
    1 <= n ->
    Z.max 0 (Z.log2 leaf_max - Z.log2 n + 1) + 1 <= Z.of_nat fuel ->
    exists tail,
      doubling_loop fuel leaf_max n counts = Some (counts ++ tail) /\
      chain (fun a b => b = a * 2) tail /\
      Forall (fun x => n <= x <= leaf_max) tail /\
      (n <= leaf_max -> hd 0 tail = n /\ leaf_max < last tail 0 * 2) /\
      (leaf_max < n -> tail = []).
Proof.
  induction fuel as [| fuel IH]; intros n counts Hn Hf.
  - lia.
  - cbn [doubling_loop].
    destruct (Z.leb_spec n leaf_max) as [Hle | Hgt].
    + assert (E2 : Z.log2 (n * 2) = Z.succ (Z.log2 n)).
      { rewrite Z.mul_comm. apply Z.log2_double. lia. }
      pose proof (Z.log2_le_mono n leaf_max Hle) as Hmono.
      destruct (IH (n * 2) (counts ++ [n]) ltac:(lia) ltac:(lia))
        as (tail & E & C & Fa & Hin & Hout).
      exists (n :: tail).
      split; [rewrite E, <- app_assoc; reflexivity |].
      split.
      { destruct tail as [| m tail']; [exact I |].
        split; [| exact C].
        destruct (Z.le_gt_cases (n * 2) leaf_max) as [H2 | H2].
        - now destruct (Hin H2).
        - discriminate (Hout H2). }
      split.
      { constructor; [lia |]. eapply Forall_impl; [| exact Fa]. cbn; lia. }
      split; [| lia]. intros _. split; [reflexivity |].
      destruct (Z.le_gt_cases (n * 2) leaf_max) as [H2 | H2].
      * destruct (Hin H2) as [Hh Hl].
        destruct tail as [| m tail]; [cbn in Hh; lia |]. exact Hl.
      * rewrite (Hout H2). cbn. lia.
    + exists []. rewrite app_nil_r. split; [reflexivity |].
      split; [exact I |]. split; [constructor |]. split; [lia | reflexivity].
Qed.

(** The doubling branch: when the logarithm of an endpoint is not an
    integer, the counts start at leaf_min, each is twice the one before,
    all lie in leaf_min..leaf_max, the next doubling would pass leaf_max,
    and the step is not looked at. *)
Theorem generate_leaf_counts_doubling leaf_min leaf_max step :
  1 <= leaf_min <= leaf_max ->
  PyFloat.is_integer (math_log2 leaf_min) = false \/
  PyFloat.is_integer (math_log2 leaf_max) = false ->
  exists counts,
    generate_leaf_counts math_log2 leaf_min leaf_max step = Some (Ok counts) /\
    hd 0 counts = leaf_min /\
    chain (fun a b => b = a * 2) counts /\
    Forall (fun x => leaf_min <= x <= leaf_max) counts /\
    leaf_max < last counts 0 * 2 /\
    generate_leaf_counts math_log2 leaf_min leaf_max 1 = Some (Ok counts).
Proof.
  intros Hr Hfrac.
  assert (Hbranch :
            negb (PyFloat.is_integer (math_log2 leaf_min))
            || negb (PyFloat.is_integer (math_log2 leaf_max)) = true).
  { destruct Hfrac as [-> | ->]; [reflexivity | apply orb_true_r]. }
  destruct (doubling_loop_spec leaf_max (leaf_counts_bound math_log2 leaf_min leaf_max)
              leaf_min [] ltac:(lia)) as (tail & E & C & Fa & Hin & _).
  { unfold leaf_counts_bound. pose proof (Z.log2_nonneg leaf_min).
    pose proof (Z.log2_nonneg leaf_max). lia. }
  destruct (Hin ltac:(lia)) as [Hh Hl].
  assert (G : forall s,
             generate_leaf_counts math_log2 leaf_min leaf_max s
             = Some (Ok tail)).
  { intros s. unfold generate_leaf_counts, generate_leaf_counts_fuel.
    destruct (Z.leb_spec leaf_min 0); [lia |].
    destruct (Z.ltb_spec leaf_max leaf_min); [lia |]. cbn [orb].
    rewrite Hbranch, E. reflexivity. }
  exists tail. split; [apply G |].
  split; [exact Hh |].
  split; [exact C |].
  split; [exact Fa |]. split; [exact Hl | apply G].
Qed.

Lemma power_loop_spec end_pow step fuel :
  1 <= step ->
  forall p counts,
    Z.max 0 (end_pow - p + 1) + 1 <= Z.of_nat fuel ->
    power_loop fuel end_pow step p counts
    = Some (counts ++ map (fun i => 2 ^ (p + Z.of_nat i * step))
                          (seq 0 (Z.to_nat ((end_pow - p) / step + 1)))).
Proof.
  intros Hs. induction fuel as [| fuel IH]; intros p counts Hf.
  - lia.
  - cbn [power_loop]. destruct (Z.leb_spec p end_pow) as [Hle | Hgt].
    + rewrite IH by lia.
      assert (Hq : (end_pow - p) / step = (end_pow - (p + step)) / step + 1).
      { replace (end_pow - p) with ((end_pow - (p + step)) + 1 * step) by lia.
        now rewrite Z.div_add by lia. }
      assert (H0 : -1 <= (end_pow - (p + step)) / step).
      { apply Z.div_le_lower_bound; lia. }
      rewrite Hq.
      replace (Z.to_nat ((end_pow - (p + step)) / step + 1 + 1))
        with (S (Z.to_nat ((end_pow - (p + step)) / step + 1))) by lia.
      cbn [seq map]. rewrite <- app_assoc. cbn [app].
      change (Z.of_nat 0) with 0. rewrite Z.mul_0_l, Z.add_0_r.
      do 3 f_equal. rewrite <- seq_shift, map_map.
      apply map_ext. intros i. f_equal. lia.
    + assert (H : (end_pow - p) / step < 0)
        by (apply Z.div_lt_upper_bound; lia).
      replace (Z.to_nat ((end_pow - p) / step + 1)) with 0%nat by lia.
      cbn. now rewrite app_nil_r.
Qed.

(** The power-of-two branch: when both logarithms are integers [a] and
    [b] and the step is positive, the counts are the powers
    [2 ** (a + i * step)] for the exponents up to [b], in increasing
    order; when the logarithms are exact they all lie in
    leaf_min..leaf_max and the first one is leaf_min. *)
Theorem generate_leaf_counts_powers leaf_min leaf_max step :
  1 <= leaf_min <= leaf_max -> 1 <= step ->
  PyFloat.is_integer (math_log2 leaf_min) = true ->
  PyFloat.is_integer (math_log2 leaf_max) = true ->
  0 <= PyFloat.to_int (math_log2 leaf_min) ->
  let a := PyFloat.to_int (math_log2 leaf_min) in
  let b := PyFloat.to_int (math_log2 leaf_max) in
  let counts := map (fun i => 2 ^ (a + Z.of_nat i * step))
                    (seq 0 (Z.to_nat ((b - a) / step + 1))) in
  generate_leaf_counts math_log2 leaf_min leaf_max step = Some (Ok counts) /\
  (leaf_min = 2 ^ a -> leaf_max = 2 ^ b ->
   hd 0 counts = leaf_min /\
   Forall (fun x => leaf_min <= x <= leaf_max) counts).
Proof.
  intros Hr Hs I1 I2 Ha a b counts. split.
  - unfold generate_leaf_counts, generate_leaf_counts_fuel.
    destruct (Z.leb_spec leaf_min 0); [lia |].
    destruct (Z.ltb_spec leaf_max leaf_min); [lia |].
    rewrite I1, I2. cbn [negb orb]. fold a b.
    rewrite (power_loop_spec b step _ Hs a []).
    + reflexivity.
    + unfold leaf_counts_bound. fold a b. lia.
  - intros Emin Emax. fold a in Ha.
    assert (Hab : a <= b).
    { destruct (Z.le_gt_cases a b) as [| Hlt]; [assumption | exfalso].
      destruct (Z.le_gt_cases 0 b) as [Hb | Hb].
      - assert (2 ^ b < 2 ^ a) by (apply Z.pow_lt_mono_r; lia). lia.
      - rewrite (Z.pow_neg_r 2 b) in Emax by lia. lia. }
    assert (Hq : 0 <= (b - a) / step) by (apply Z.div_pos; lia).
    split.
    + unfold counts.
      replace (Z.to_nat ((b - a) / step + 1))
        with (S (Z.to_nat ((b - a) / step))) by lia.
      cbn [seq map hd]. change (Z.of_nat 0) with 0.
      rewrite Z.mul_0_l, Z.add_0_r. now symmetry.
    + unfold counts. apply Forall_forall. intros x Hx.
      apply in_map_iff in Hx. destruct Hx as (i & <- & Hi).
      apply in_seq in Hi.
      assert (Hile : Z.of_nat i <= (b - a) / step) by lia.
      assert (Z.of_nat i * step <= b - a).
      { apply Z.le_trans with ((b - a) / step * step).
        - apply Z.mul_le_mono_nonneg_r; lia.
        - rewrite Z.mul_comm. apply Z.mul_div_le. lia. }
      rewrite Emin, Emax. split; apply Z.pow_le_mono_r; nia.
Qed.

Lemma power_loop_never_ends end_pow step fuel :
  step <= 0 ->
  forall p counts,
    p <= end_pow -> power_loop fuel end_pow step p counts = None.
Proof.
  intros Hs. induction fuel as [| fuel IH]; intros p counts Hp;
    [reflexivity |].
  cbn [power_loop]. destruct (Z.leb_spec p end_pow); [| lia].
  apply IH. lia.
Qed.

(** A step of zero or below: in the power-of-two branch, with the
    logarithm of leaf_min not above that of leaf_max, the generator's
    loop never ends, whatever number of iterations is allowed. *)
Theorem generate_leaf_counts_step_nonpositive fuel leaf_min leaf_max step :
  1 <= leaf_min <= leaf_max -> step <= 0 ->
  PyFloat.is_integer (math_log2 leaf_min) = true ->
  PyFloat.is_integer (math_log2 leaf_max) = true ->
  PyFloat.to_int (math_log2 leaf_min) <= PyFloat.to_int (math_log2 leaf_max) ->
  generate_leaf_counts_fuel math_log2 fuel leaf_min leaf_max step = None.
Proof.
  intros Hr Hs I1 I2 Hab. unfold generate_leaf_counts_fuel.
  destruct (Z.leb_spec leaf_min 0); [lia |].
  destruct (Z.ltb_spec leaf_max leaf_min); [lia |].
  rewrite I1, I2. cbn [negb orb].
  now rewrite power_loop_never_ends.
Qed.

End SweeperExtras.

Lemma generate_leaf_counts_value_error_witness :
  Sweeper.generate_leaf_counts_fuel log2_through_float 5 8 4 1
  = Some (Raise (ValueError "leaf-min must be > 0 and <= leaf-max")).
Proof.
  apply (proj1 (generate_leaf_counts_value_error log2_through_float 5 8 4 1)).
  right. lia.
Defined.

Lemma generate_leaf_counts_doubling_witness :
  exists counts,
    Sweeper.generate_leaf_counts log2_through_float 1000 10000 7
    = Some (Ok counts) /\
    hd 0 counts = 1000 /\
    Forall (fun x => 1000 <= x <= 10000) counts.
Proof.
  destruct (generate_leaf_counts_doubling log2_through_float 1000 10000 7)
    as (counts & E & H & _ & Fa & _).
  - lia.
  - left. vm_compute. reflexivity.
  - exists counts. split; [exact E |]. split; [exact H | exact Fa].
Defined.

Lemma generate_leaf_counts_powers_witness :
  Sweeper.generate_leaf_counts log2_through_float 1024 65536 2
  = Some (Ok [1024; 4096; 16384; 65536]).
Proof.
  destruct (generate_leaf_counts_powers log2_through_float 1024 65536 2)
    as [E _]; [lia | lia | reflexivity | reflexivity
               | vm_compute; discriminate |].
  exact E.
Defined.


Lemma generate_leaf_counts_step_nonpositive_witness :
  Sweeper.generate_leaf_counts_fuel log2_through_float 1000 1024 65536 0
  = None.
Proof.
  apply (generate_leaf_counts_step_nonpositive log2_through_float 1000
           1024 65536 0); [lia | lia | reflexivity | reflexivity |].
  vm_compute. discriminate.
Defined.
